(** * Paddle OCR web application: line reconstruction and batch orchestration

    A shallow embedding of [app.py]: the helper [allowed_file], the text
    reconstruction [process_ocr_result] and the three Flask routes
    [upload_and_ocr_batch], [upload_and_ocr_batch_augmented] and
    [upload_and_ocr], followed by the properties the specification states
    about them.

    Modelling conventions.
    - Python [str] is [string], holding the UTF-8 encoding of the text;
      [str.lower] acts on the ASCII letters, which is all that membership
      in [ALLOWED_EXTENSIONS] can observe, and [str.split] recognises the
      blank characters of Unicode in their encoded form.
    - Box coordinates are exact rationals ([Q]).  PaddleOCR returns pixel
      coordinates; on whole numbers from 0 up to 2^52 (the predicate
      [pixel]) the float operations of the source (one addition, one
      halving, one subtraction) are exact, and the embedding computes what
      the source computes; [pixel_box] names that restriction where a
      statement turns on the exact bound.
    - [list.sort(key=...)] is a stable sort driven by [<] on the keys; it is
      modelled by a stable insertion sort.
    - Python exceptions are values of [exn]; code that may raise returns
      [Res].  The routes run in a state-and-exception monad over [State]
      (file system, random identifiers, log of external calls, the local
      list [results]).
    - The detector, OpenCV, [uuid.uuid4] and [file.save] are described by
      an environment [Env] of functions of the arguments of each call; the
      theorems hold for every environment.  [file.save] writes the file,
      or raises, possibly after it created the destination; [os.remove]
      deletes an existing regular file.
    - The file system maps the path strings the routes use to contents;
      two spellings of one location are two keys.  Statements about
      storage therefore speak of the path a route saved to and removed,
      and of the calls it made with that path.  The upload folder is kept
      apart, as the flag [upload_folder_exists]. *)

From Stdlib Require Import QArith Qabs Ascii Lqa.
From stdpp Require Import gmap strings list sorting.

Open Scope string_scope.
Open Scope list_scope.

(** ** Exceptions *)

Inductive exn : Type :=
  | IndexError (msg : string)
  | FileNotFoundError (msg : string)
  | FileExistsError (msg : string)
  | LibError (msg : string).   (* raised by werkzeug, PaddleOCR or OpenCV *)

(** [str(e)] *)
Definition str (e : exn) : string :=
  match e with
  | IndexError m | FileNotFoundError m | FileExistsError m | LibError m => m
  end.

Inductive Res (A : Type) : Type :=
  | Ok (a : A)
  | Raise (e : exn).
Arguments Ok {A} a.
Arguments Raise {A} e.

(** ** String helpers used by the source *)

(** [c in s] for a one-character [c]. *)
Fixpoint contains (c : ascii) (s : string) : bool :=
  match s with
  | EmptyString => false
  | String a s' => if Ascii.eqb a c then true else contains c s'
  end.

(** The split point of [s.rsplit(c, 1)]: the text before and after the
    last occurrence of [c], when there is one. *)
Fixpoint rsplit_last (c : ascii) (s : string) : option (string * string) :=
  match s with
  | EmptyString => None
  | String a s' =>
      match rsplit_last c s' with
      | Some (pre, post) => Some (String a pre, post)
      | None => if Ascii.eqb a c then Some (EmptyString, s') else None
      end
  end.

(** [s.rsplit(c, 1)] *)
Definition rsplit1 (c : ascii) (s : string) : list string :=
  match rsplit_last c s with
  | Some (pre, post) => [pre; post]
  | None => [s]
  end.

Definition lower_ascii (a : ascii) : ascii :=
  let n := nat_of_ascii a in
  if (65 <=? n)%nat && (n <=? 90)%nat then ascii_of_nat (n + 32) else a.

(** [s.lower()] *)
Fixpoint lower (s : string) : string :=
  match s with
  | EmptyString => EmptyString
  | String a s' => String (lower_ascii a) (lower s')
  end.

(** [sep.join(parts)] *)
Definition join (sep : string) (parts : list string) : string :=
  String.concat sep parts.

Definition newline : string := String (ascii_of_nat 10) EmptyString.

(** ** Configuration *)

Definition UPLOAD_FOLDER : string := "uploads".
Definition ALLOWED_EXTENSIONS : gset string := {[ "png"; "jpg"; "jpeg" ]}.

(** ** [allowed_file] *)

(** [filename.rsplit('.', 1)[1].lower() in ALLOWED_EXTENSIONS], guarded by
    ['.' in filename]; the index [1] raises [IndexError] when the split has
    a single element. *)
Definition allowed_file (filename : string) : Res bool :=
  if contains "." filename then
    match rsplit1 "." filename !! 1%nat with
    | Some ext => Ok (bool_decide (lower ext ∈ ALLOWED_EXTENSIONS))
    | None => Raise (IndexError "list index out of range")
    end
  else Ok false.

(** ** Detector output *)

Record Point : Type := mkPoint { px : Q; py : Q }.

(** A bounding box: four corners, clockwise from the top-left one. *)
Record Box : Type := mkBox { p0 : Point; p1 : Point; p2 : Point; p3 : Point }.

(** One detection, [[box, (text, confidence)]]. *)
Record Detection : Type := mkDetection {
  det_box : Box;
  det_text : string;
  det_confidence : Q
}.

(** The value returned by [ocr_model.ocr]: [None], or a list with one entry
    per image, each entry [None] or a list of detections. *)
Definition OcrResult : Type := option (list (option (list Detection))).

(** ** [process_ocr_result] *)

(** An entry of [text_coordinates]: [{'text': .., 'y': .., 'x': ..}]. *)
Record Item : Type := mkItem { item_text : string; item_y : Q; item_x : Q }.

(** Body of the first loop: the dictionary built for one detection. *)
Definition text_coordinate (item : Detection) : Item :=
  let box := det_box item in
  let text := det_text item in
  let y_coord := ((py (p0 box) + py (p2 box)) / 2)%Q in
  let x_coord := px (p0 box) in
  {| item_text := text; item_y := y_coord; item_x := x_coord |}.

Definition Qltb (a b : Q) : bool := negb (Qle_bool b a).

(** [(y1, x1) < (y2, x2)] on Python tuples: the first components decide
    unless they are equal. *)
Definition tuple_ltb (k1 k2 : Q * Q) : bool :=
  if Qeq_bool (fst k1) (fst k2) then Qltb (snd k1) (snd k2)
  else Qltb (fst k1) (fst k2).

(** One insertion of a stable sort: [a] is placed before the first element
    that is strictly greater, hence after the elements with an equal key. *)
Fixpoint insert_sorted {A} (lt : A -> A -> bool) (a : A) (l : list A) : list A :=
  match l with
  | [] => [a]
  | b :: l' => if lt a b then a :: l else b :: insert_sorted lt a l'
  end.

(** [l.sort(key=...)], with [lt a b] standing for [key(a) < key(b)]:
    elements are inserted from the left into the sorted prefix. *)
Definition sort_by {A} (lt : A -> A -> bool) (l : list A) : list A :=
  foldl (fun acc a => insert_sorted lt a acc) [] l.

(** [key=lambda item: (item['y'], item['x'])] *)
Definition key_yx (item : Item) : Q * Q := (item_y item, item_x item).
Definition lt_yx (a b : Item) : bool := tuple_ltb (key_yx a) (key_yx b).

(** [key=lambda x: x['x']] *)
Definition lt_x (a b : Item) : bool := Qltb (item_x a) (item_x b).

Definition line_threshold : Q := 18%Q.

(** [' '.join([item['text'] for item in current_line])] after
    [current_line.sort(key=lambda x: x['x'])]. *)
Definition format_line (current_line : list Item) : string :=
  join " " (map item_text (sort_by lt_x current_line)).

(** The grouping loop, [for i in range(1, len(text_coordinates))], over the
    remaining items, with the two mutable lists as state. *)
Fixpoint group_loop (items : list Item) (formatted_lines : list string)
    (current_line : list Item) : Res (list string * list Item) :=
  match items with
  | [] => Ok (formatted_lines, current_line)
  | current_item :: items' =>
      match last current_line with
      | None => Raise (IndexError "list index out of range")
      | Some prev_item =>
          if Qle_bool (Qabs (item_y current_item - item_y prev_item)%Q) line_threshold
          then group_loop items' formatted_lines (current_line ++ [current_item])
          else group_loop items'
                 (formatted_lines ++ [format_line current_line]) [current_item]
      end
  end.

Definition no_text_found : string := "No text found.".

Definition process_ocr_result (result : OcrResult) : Res string :=
  match result with
  | None | Some [] => Ok no_text_found                 (* [not result] *)
  | Some (None :: _) | Some (Some [] :: _) => Ok no_text_found   (* [not result[0]] *)
  | Some (Some result_0 :: _) =>
      let text_coordinates := map text_coordinate result_0 in
      let text_coordinates := sort_by lt_yx text_coordinates in
      match text_coordinates with
      | [] => Ok ""                          (* [if not text_coordinates] *)
      | first :: rest =>
          match group_loop rest [] [first] with
          | Raise e => Raise e
          | Ok (formatted_lines, current_line) =>
              let formatted_lines :=
                match current_line with
                | [] => formatted_lines
                | _ :: _ => formatted_lines ++ [format_line current_line]
                end in
              Ok (join newline formatted_lines)
          end
      end
  end.

(** ** The clusterer and the formatter as the specification words them

    These two definitions follow the specification (sections 4.1 and 4.2);
    the theorems below compare them with [process_ocr_result]. *)

(** Vertical proximity of a fragment to the last one added to the open line. *)
Definition close (last_added fragment : Item) : bool :=
  Qle_bool (Qabs (item_y fragment - item_y last_added)%Q) line_threshold.

(** One walk over the sorted sequence: [closed] are the finalized lines,
    [open] the open line and [last_added] the fragment added to it last. *)
Fixpoint spec_walk (closed : list (list Item)) (open : list Item)
    (last_added : Item) (rest : list Item) : list (list Item) :=
  match rest with
  | [] => closed ++ [open]
  | fragment :: rest' =>
      if close last_added fragment
      then spec_walk closed (open ++ [fragment]) fragment rest'
      else spec_walk (closed ++ [open]) [fragment] fragment rest'
  end.

Definition spec_cluster (fragments : list Item) : list (list Item) :=
  match sort_by lt_yx fragments with
  | [] => []
  | first :: rest => spec_walk [] [first] first rest
  end.

Definition spec_format (lines : list (list Item)) : string :=
  join newline
    (map (fun line => join " " (map item_text (sort_by lt_x line))) lines).

(** Every pair of neighbours of [l] is related by [R]. *)
Fixpoint neighbours {A} (R : A -> A -> Prop) (l : list A) : Prop :=
  match l with
  | a :: (b :: _) as l' => R a b /\ neighbours R l'
  | _ => True
  end.

(** The order of the keys [(y, x)], spelled out. *)
Definition le_yx (a b : Item) : Prop :=
  (item_y a < item_y b)%Q \/
  ((item_y a == item_y b)%Q /\ (item_x a <= item_x b)%Q).

(** [len(text.split())], written [len_split text]: the number of maximal
    runs of characters that are not blank.  The blank characters of
    [str.split] are those encoded in one byte (tab to carriage return, the
    four separators 28 to 31, and the space), in two bytes (U+0085 and
    U+00A0) and in three bytes (U+1680, U+2000 to U+200A, U+2028, U+2029,
    U+202F, U+205F and U+3000). *)
Definition is_space (a : ascii) : bool :=
  let n := nat_of_ascii a in
  ((9 <=? n)%nat && (n <=? 13)%nat) || ((28 <=? n)%nat && (n <=? 32)%nat).

Definition is_space2 (a b : ascii) : bool :=
  let x := nat_of_ascii a in
  let y := nat_of_ascii b in
  (x =? 194)%nat && ((y =? 133)%nat || (y =? 160)%nat).

Definition is_space3 (a b c : ascii) : bool :=
  let x := nat_of_ascii a in
  let y := nat_of_ascii b in
  let z := nat_of_ascii c in
  ((x =? 225)%nat && ((y =? 154)%nat && (z =? 128)%nat))
  || ((x =? 226)%nat && ((y =? 128)%nat
                         && (((128 <=? z)%nat && (z <=? 138)%nat)
                             || ((168 <=? z)%nat && (z <=? 169)%nat)
                             || (z =? 175)%nat)))
  || ((x =? 226)%nat && ((y =? 129)%nat && (z =? 159)%nat))
  || ((x =? 227)%nat && ((y =? 128)%nat && (z =? 128)%nat)).

(** The count after a character that is not blank: it opens a word unless
    a word is open already. *)
Definition word_step (in_word : bool) (n : nat) : nat :=
  if in_word then n else S n.

Fixpoint count_words (in_word : bool) (s : string) : nat :=
  match s with
  | EmptyString => 0
  | String a s1 =>
      if is_space a then count_words false s1
      else
        match s1 with
        | String b s2 =>
            if is_space2 a b then count_words false s2
            else
              match s2 with
              | String c s3 =>
                  if is_space3 a b c then count_words false s3
                  else word_step in_word (count_words true s1)
              | EmptyString => word_step in_word (count_words true s1)
              end
        | EmptyString => word_step in_word (count_words true s1)
        end
  end.

Definition len_split (text : string) : nat := count_words false text.

(** ** The world of the routes *)

(** An uploaded file (werkzeug's [FileStorage]): its name and its bytes. *)
Record File : Type := mkFile { filename : string; content : string }.

(** [bool(file)] is [bool(file.filename)]. *)
Definition file_truthy (file : File) : bool :=
  negb (String.eqb (filename file) "").

(** [request.files]: a multi-dictionary from field names to uploaded files. *)
Record Request : Type := mkRequest { request_files : gmap string (list File) }.

Inductive Status : Type := success | error.

Record Variant : Type := mkVariant { name : string; word_count : nat }.

(** The dictionaries appended to [results]; a key that a dictionary does
    not have is [None]. *)
Record Outcome : Type := mkOutcome {
  o_filename : string;
  o_text : string;
  o_status : Status;
  o_error : option string;
  o_original_text : option string;
  o_variants : option (list Variant)
}.

(** The JSON bodies the routes return, with the HTTP status code. *)
Inductive Body : Type :=
  | ErrorBody (error : string)          (* [{'error': ..}] *)
  | ResultsBody (results : list Outcome)   (* [{'results': ..}] *)
  | TextBody (text : string).           (* [{'text': ..}] *)

Definition Response : Type := (Body * nat)%type.

(** Calls to the outside world, in the order they are made. *)
Inductive Event : Type :=
  | EvMakedirs (path : string)
  | EvSave (path : string)
  | EvOcrPath (path : string)
  | EvImread (path : string)
  | EvCvtColor
  | EvThreshold
  | EvOcrImage
  | EvRemove (path : string).

(** The state the routes act on.  The file system holds regular files;
    the only directory it tracks is the upload folder, so a temporary path
    never names a directory. *)
Record State : Type := mkState {
  fs : gmap string string;         (* regular files: path to content *)
  upload_folder_exists : bool;
  uuid_calls : nat;                (* calls to [uuid.uuid4] so far *)
  log : list Event;                (* external calls so far, oldest first *)
  results : list Outcome           (* the route's local list [results] *)
}.

(** How [file.save] may end: the file is written, or an exception is
    raised, possibly after the destination was created with partial
    content. *)
Inductive SaveOutcome : Type :=
  | Saved
  | SaveFailed (e : exn) (partial : option string).

(** The behaviour of the external collaborators, each a function of the
    arguments of the call. *)
Record Env (Image : Type) : Type := mkEnv {
  uuid4 : nat -> string;                          (* the n-th random identifier *)
  save_outcome : File -> string -> SaveOutcome;   (* [file.save(dst)] *)
  detect_file : string -> string -> Res OcrResult; (* detector on a stored file: path, content *)
  decode_image : string -> string -> option Image; (* [cv2.imread]: [None] when unreadable *)
  cvtColor : option Image -> Res Image;
  threshold : Image -> Res Image;
  detect_image : Image -> Res OcrResult           (* detector on an array *)
}.
Arguments uuid4 {Image} _ _.
Arguments save_outcome {Image} _ _ _.
Arguments detect_file {Image} _ _ _.
Arguments decode_image {Image} _ _ _.
Arguments cvtColor {Image} _ _.
Arguments threshold {Image} _ _.
Arguments detect_image {Image} _ _.

(** ** A state and exception monad *)

Definition M (A : Type) : Type := State -> Res A * State.

Definition ret {A} (a : A) : M A := fun s => (Ok a, s).
Definition raise {A} (e : exn) : M A := fun s => (Raise e, s).
Definition lift {A} (r : Res A) : M A := fun s => (r, s).

Definition bind {A B} (m : M A) (k : A -> M B) : M B :=
  fun s =>
    match m s with
    | (Ok a, s') => k a s'
    | (Raise e, s') => (Raise e, s')
    end.

Notation "x <- m ;; k" := (bind m (fun x => k))
  (at level 100, m at next level, k at level 200, right associativity).
Notation "m ;; k" := (bind m (fun _ => k))
  (at level 100, k at level 200, right associativity).

(** [try: body except Exception as e: handler] *)
Definition try_except {A} (body : M A) (handler : exn -> M A) : M A :=
  fun s =>
    match body s with
    | (Ok a, s') => (Ok a, s')
    | (Raise e, s') => handler e s'
    end.

(** [try: body finally: final]: [final] always runs; an exception it
    raises replaces the result of [body]. *)
Definition try_finally {A} (body : M A) (final : M unit) : M A :=
  fun s =>
    match body s with
    | (r, s') =>
        match final s' with
        | (Ok _, s'') => (r, s'')
        | (Raise e, s'') => (Raise e, s'')
        end
    end.

(** [for x in xs: body(x)] *)
Fixpoint for_each {A} (xs : list A) (body : A -> M unit) : M unit :=
  match xs with
  | [] => ret tt
  | x :: xs' => body x ;; for_each xs' body
  end.

(** *** State updates *)

Definition set_fs (f : gmap string string) (s : State) : State :=
  mkState f (upload_folder_exists s) (uuid_calls s) (log s) (results s).
Definition set_upload_folder_exists (b : bool) (s : State) : State :=
  mkState (fs s) b (uuid_calls s) (log s) (results s).
Definition set_uuid_calls (n : nat) (s : State) : State :=
  mkState (fs s) (upload_folder_exists s) n (log s) (results s).
Definition set_log (l : list Event) (s : State) : State :=
  mkState (fs s) (upload_folder_exists s) (uuid_calls s) l (results s).
Definition set_results (r : list Outcome) (s : State) : State :=
  mkState (fs s) (upload_folder_exists s) (uuid_calls s) (log s) r.

Definition emit (ev : Event) : M unit :=
  fun s => (Ok tt, set_log (log s ++ [ev]) s).

(** [results = []] and [results.append(o)] *)
Definition results_init : M unit := fun s => (Ok tt, set_results [] s).
Definition results_append (o : Outcome) : M unit :=
  fun s => (Ok tt, set_results (results s ++ [o]) s).
Definition results_get : M (list Outcome) := fun s => (Ok (results s), s).

(** *** The operating system *)

Definition starts_with_slash (p : string) : bool :=
  match p with
  | String a _ => Ascii.eqb a "/"
  | EmptyString => false
  end.

(** [os.path.join(a, b)] on POSIX, for a non-empty [a] without a trailing
    slash: an absolute [b] discards [a]. *)
Definition os_path_join (a b : string) : string :=
  if starts_with_slash b then b else a +:+ "/" +:+ b.

Definition os_path_exists (path : string) : M bool :=
  fun s =>
    (Ok (if String.eqb path UPLOAD_FOLDER then upload_folder_exists s
         else bool_decide (is_Some (fs s !! path))), s).

Definition os_makedirs (path : string) : M unit :=
  emit (EvMakedirs path) ;;
  present <- os_path_exists path ;;
  if present then raise (FileExistsError path)
  else if String.eqb path UPLOAD_FOLDER
       then (fun s => (Ok tt, set_upload_folder_exists true s))
       else ret tt.

Definition os_remove (path : string) : M unit :=
  emit (EvRemove path) ;;
  fun s =>
    match fs s !! path with
    | Some _ => (Ok tt, set_fs (delete path (fs s)) s)
    | None => (Raise (FileNotFoundError path), s)
    end.

Section Routes.
Context {Image : Type} (env : Env Image).

(** *** The external collaborators *)

(** [uuid.uuid4()] *)
Definition uuid_uuid4 : M string :=
  fun s => (Ok (uuid4 env (uuid_calls s)), set_uuid_calls (S (uuid_calls s)) s).

(** [file.save(dst)] *)
Definition file_save (file : File) (dst : string) : M unit :=
  emit (EvSave dst) ;;
  match save_outcome env file dst with
  | Saved => fun s => (Ok tt, set_fs (<[dst := content file]> (fs s)) s)
  | SaveFailed e None => raise e
  | SaveFailed e (Some partial) =>
      fun s => (Raise e, set_fs (<[dst := partial]> (fs s)) s)
  end.

(** [ocr_model.ocr(filepath, cls=False)]: the detector reads the file. *)
Definition ocr_model_ocr_path (filepath : string) : M OcrResult :=
  emit (EvOcrPath filepath) ;;
  fun s =>
    match fs s !! filepath with
    | Some c => (detect_file env filepath c, s)
    | None => (Raise (FileNotFoundError filepath), s)
    end.

(** [ocr_model.ocr(img, cls=False)] on an array *)
Definition ocr_model_ocr_image (img : Image) : M OcrResult :=
  emit EvOcrImage ;; lift (detect_image env img).

(** [cv2.imread(filepath)]: [None] for a missing or unreadable file. *)
Definition cv2_imread (filepath : string) : M (option Image) :=
  emit (EvImread filepath) ;;
  fun s =>
    (Ok (match fs s !! filepath with
         | Some c => decode_image env filepath c
         | None => None
         end), s).

Definition cv2_cvtColor (img : option Image) : M Image :=
  emit EvCvtColor ;; lift (cvtColor env img).

Definition cv2_threshold (gray_img : Image) : M Image :=
  emit EvThreshold ;; lift (threshold env gray_img).

(** *** Shared pieces of the routes *)

(** [if not os.path.exists(UPLOAD_FOLDER): os.makedirs(UPLOAD_FOLDER)] *)
Definition ensure_upload_folder : M unit :=
  present <- os_path_exists UPLOAD_FOLDER ;;
  if present then ret tt else os_makedirs UPLOAD_FOLDER.

(** The [finally] block:
    [if os.path.exists(filepath): os.remove(filepath)] *)
Definition cleanup (filepath : string) : M unit :=
  present <- os_path_exists filepath ;;
  if present then os_remove filepath else ret tt.

(** [file and allowed_file(file.filename)] as a condition *)
Definition file_and_allowed (file : File) : M bool :=
  if file_truthy file then lift (allowed_file (filename file)) else ret false.

Definition success_outcome (file : File) (formatted_text : string) : Outcome :=
  {| o_filename := filename file; o_text := formatted_text; o_status := success;
     o_error := None; o_original_text := None; o_variants := None |}.

Definition error_outcome (name : string) (message : string) : Outcome :=
  {| o_filename := name; o_text := ""; o_status := error;
     o_error := Some message; o_original_text := None; o_variants := None |}.

(** The [else] branch of both batch loops. *)
Definition not_allowed_outcome (file : File) : Outcome :=
  error_outcome (if file_truthy file then filename file else "Unknown")
                "File type not allowed".

(** [os.path.join(UPLOAD_FOLDER, f"{uuid.uuid4()}_{file.filename}")] *)
Definition unique_path (u : string) (file : File) : string :=
  os_path_join UPLOAD_FOLDER (u +:+ "_" +:+ filename file).

(** *** [/ocr-batch] *)

(** The [try] block of the loop body. *)
Definition batch_try (file : File) (filepath : string) : M unit :=
  file_save file filepath ;;
  result <- ocr_model_ocr_path filepath ;;
  formatted_text <- lift (process_ocr_result result) ;;
  results_append (success_outcome file formatted_text).

(** The [except Exception as e] block of both batch loops. *)
Definition batch_except (file : File) (e : exn) : M unit :=
  results_append (error_outcome (filename file) (str e)).

(** The loop body. *)
Definition batch_item (file : File) : M unit :=
  ok <- file_and_allowed file ;;
  if ok then
    u <- uuid_uuid4 ;;
    let filepath := unique_path u file in
    try_finally
      (try_except (batch_try file filepath) (batch_except file))
      (cleanup filepath)
  else results_append (not_allowed_outcome file).

(** [not files or all(file.filename == '' for file in files)] *)
Definition nothing_selected (files : list File) : bool :=
  match files with
  | [] => true
  | _ => forallb (fun file => String.eqb (filename file) "") files
  end.

(** The body shared by the two batch routes, which differ in the loop
    body [item] only. *)
Definition batch_route (item : File -> M unit) (request : Request) : M Response :=
  match request_files request !! "files" with
  | None => ret (ErrorBody "No files part in the request", 400%nat)
  | Some files =>
      if nothing_selected files
      then ret (ErrorBody "No files selected for uploading", 400%nat)
      else
        results_init ;;
        ensure_upload_folder ;;
        for_each files item ;;
        results <- results_get ;;
        ret (ResultsBody results, 200%nat)
  end.

Definition upload_and_ocr_batch : Request -> M Response :=
  batch_route batch_item.

(** *** [/ocr-batch-augmented] *)

(** Step 1 of the [try] block: OCR on the original image. *)
Definition identity_steps (filepath : string) : M string :=
  original_result <- ocr_model_ocr_path filepath ;;
  lift (process_ocr_result original_result).

(** Steps 2 and 3: grayscale, threshold, OCR on the processed array. *)
Definition augmentation_steps (filepath : string) : M string :=
  img <- cv2_imread filepath ;;
  gray_img <- cv2_cvtColor img ;;
  augmented_img <- cv2_threshold gray_img ;;
  augmented_result <- ocr_model_ocr_image augmented_img ;;
  lift (process_ocr_result augmented_result).

Definition augmented_outcome (file : File) (augmented_text original_text : string)
  : Outcome :=
  {| o_filename := filename file; o_text := augmented_text; o_status := success;
     o_error := None; o_original_text := Some original_text;
     o_variants := Some
       [ mkVariant "Original" (len_split original_text);
         mkVariant "Grayscale + Threshold" (len_split augmented_text) ] |}.

Definition augmented_try (file : File) (filepath : string) : M unit :=
  file_save file filepath ;;
  original_text <- identity_steps filepath ;;
  augmented_text <- augmentation_steps filepath ;;
  results_append (augmented_outcome file augmented_text original_text).

Definition augmented_item (file : File) : M unit :=
  ok <- file_and_allowed file ;;
  if ok then
    u <- uuid_uuid4 ;;
    let filepath := unique_path u file in
    try_finally
      (try_except (augmented_try file filepath) (batch_except file))
      (cleanup filepath)
  else results_append (not_allowed_outcome file).

Definition upload_and_ocr_batch_augmented : Request -> M Response :=
  batch_route augmented_item.

(** *** [/ocr] *)

Definition single_try (filepath : string) : M Response :=
  result <- ocr_model_ocr_path filepath ;;
  formatted_text <- lift (process_ocr_result result) ;;
  ret (TextBody formatted_text, 200%nat).

Definition single_except (e : exn) : M Response :=
  ret (ErrorBody ("An error occurred during OCR processing: " +:+ str e), 500%nat).

(** [request.files['file']] is the first file of the field; a field
    without any file counts as absent. *)
Definition upload_and_ocr (request : Request) : M Response :=
  match request_files request !! "file" with
  | None | Some [] => ret (ErrorBody "No file part in the request", 400%nat)
  | Some (file :: _) =>
      if String.eqb (filename file) ""
      then ret (ErrorBody "No file selected for uploading", 400%nat)
      else
        ok <- file_and_allowed file ;;
        if ok then
          ensure_upload_folder ;;
          let filepath := os_path_join UPLOAD_FOLDER (filename file) in
          file_save file filepath ;;
          try_finally
            (try_except (single_try filepath) single_except)
            (cleanup filepath)
        else ret (ErrorBody "File type not allowed", 400%nat)
  end.
End Routes.

(** ** Vocabulary of the statements *)

(** The shape of a detector result whose first page is [result_0]. *)
Definition first_page (result_0 : list Detection)
    (more : list (option (list Detection))) : OcrResult :=
  Some (Some result_0 :: more).

(** The fragments a detector result offers to the reconstruction. *)
Definition fragments_of (result : OcrResult) : list Detection :=
  match result with
  | Some (Some result_0 :: _) => result_0
  | _ => []
  end.

(** [a] does not come after [b] in the order [lt]. *)
Definition not_after {A} (lt : A -> A -> bool) (a b : A) : Prop := lt b a = false.

(** [a] and [b] have equal keys in the order [lt]. *)
Definition tied {A} (lt : A -> A -> bool) (a b : A) : bool :=
  negb (lt a b) && negb (lt b a).

(** Two consecutive lines are separated by a vertical gap above the threshold. *)
Definition gap_between (line1 line2 : list Item) : Prop :=
  forall a b, last line1 = Some a -> head line2 = Some b -> close a b = false.

(** Every fragment of a line is within the threshold of the one before it. *)
Definition chained (line : list Item) : Prop :=
  neighbours (fun a b => close a b = true) line.

(** Two characters that differ at most in letter case: they are equal, or
    one is a capital letter [A] to [Z] and the other the small letter, 32
    places after it. *)
Definition same_letter (a b : ascii) : Prop :=
  a = b \/
  ((65 <= nat_of_ascii a <= 90)%nat /\ nat_of_ascii b = (nat_of_ascii a + 32)%nat) \/
  ((65 <= nat_of_ascii b <= 90)%nat /\ nat_of_ascii a = (nat_of_ascii b + 32)%nat).

(** Two texts that differ at most in letter case. *)
Fixpoint same_ignoring_case (s t : string) : Prop :=
  match s, t with
  | EmptyString, EmptyString => True
  | String a s', String b t' => same_letter a b /\ same_ignoring_case s' t'
  | _, _ => False
  end.

(** [ext] is what follows the last dot of [name]. *)
Definition extension_of (name ext : string) : Prop :=
  (exists stem, name = stem +:+ "." +:+ ext) /\
  (forall before after, ext <> before +:+ "." +:+ after).

(** A name with an allowed extension, as the specification words it: a
    dot, and after the last dot [png], [jpg] or [jpeg] in any letter
    case. *)
Definition has_allowed_extension (name : string) : Prop :=
  exists ext,
    extension_of name ext /\
    (same_ignoring_case ext "png" \/ same_ignoring_case ext "jpg" \/
     same_ignoring_case ext "jpeg").

(** An error outcome, as the specification words it: the name of the
    item, the status [error] and the message; no text, and none of the
    fields of the augmented mode. *)
Definition error_entry (name message : string) (o : Outcome) : Prop :=
  o_filename o = name /\ o_status o = error /\ o_error o = Some message /\
  o_text o = "" /\ o_original_text o = None /\ o_variants o = None.

(** An item passes validation: the condition of the loop bodies. *)
Definition accepted (file : File) : bool :=
  file_truthy file &&
  match allowed_file (filename file) with Ok b => b | Raise _ => false end.

(** [o] is an outcome the loop body [item] appends for [file]. *)
Definition outcome_of_item (item : File -> M unit) (file : File) (o : Outcome) : Prop :=
  exists s s', item file s = (Ok tt, s') /\ results s' = results s ++ [o].

(** A request whose field [files] carries [files]. *)
Definition batch_request (files : list File) : Request :=
  mkRequest {[ "files" := files ]}.

(** A request whose field [file] carries [file]. *)
Definition single_request (file : File) : Request :=
  mkRequest {[ "file" := [file] ]}.

(** The storage events of a log: saving and removing temporary files. *)
Definition storage_event (ev : Event) : bool :=
  match ev with
  | EvSave _ | EvRemove _ => true
  | _ => false
  end.

(** *** Summaries of the guarded blocks

    What a [try] block computes from the answers of the environment, as
    pure functions; the lemmas [batch_try_run] and [augmented_try_run]
    relate them to the blocks. *)

Definition identity_pure {Image} (env : Env Image) (p c : string) : Res string :=
  match detect_file env p c with
  | Ok r => process_ocr_result r
  | Raise e => Raise e
  end.

Definition augmentation_pure {Image} (env : Env Image) (p c : string)
  : Res string * list Event :=
  match cvtColor env (decode_image env p c) with
  | Raise e => (Raise e, [EvImread p; EvCvtColor])
  | Ok gray_img =>
      match threshold env gray_img with
      | Raise e => (Raise e, [EvImread p; EvCvtColor; EvThreshold])
      | Ok augmented_img =>
          (match detect_image env augmented_img with
           | Ok r => process_ocr_result r
           | Raise e => Raise e
           end, [EvImread p; EvCvtColor; EvThreshold; EvOcrImage])
      end
  end.

Definition fs_after_save {Image} (env : Env Image) (file : File) (p : string)
    (m : gmap string string) : gmap string string :=
  match save_outcome env file p with
  | Saved => <[p := content file]> m
  | SaveFailed _ (Some partial) => <[p := partial]> m
  | SaveFailed _ None => m
  end.

Definition simple_summary {Image} (env : Env Image) (p : string) (file : File)
  : Res Outcome * list Event :=
  match save_outcome env file p with
  | Saved =>
      (match identity_pure env p (content file) with
       | Ok t => Ok (success_outcome file t)
       | Raise e => Raise e
       end, [EvSave p; EvOcrPath p])
  | SaveFailed e _ => (Raise e, [EvSave p])
  end.

Definition augmented_summary {Image} (env : Env Image) (p : string) (file : File)
  : Res Outcome * list Event :=
  match save_outcome env file p with
  | Saved =>
      match identity_pure env p (content file) with
      | Ok original_text =>
          let '(r, evs) := augmentation_pure env p (content file) in
          (match r with
           | Ok augmented_text => Ok (augmented_outcome file augmented_text original_text)
           | Raise e => Raise e
           end, [EvSave p; EvOcrPath p] ++ evs)
      | Raise e => (Raise e, [EvSave p; EvOcrPath p])
      end
  | SaveFailed e _ => (Raise e, [EvSave p])
  end.

(** The result and the state a [try] block of a batch loop ends with,
    whether it returns or raises, from its summary. *)
Definition try_end {Image} (env : Env Image) (f : File) (p : string)
    (summary : Res Outcome * list Event) (s : State) : Res unit * State :=
  (match fst summary with Ok _ => Ok tt | Raise e => Raise e end,
   mkState (fs_after_save env f p (fs s)) (upload_folder_exists s) (uuid_calls s)
           (log s ++ snd summary)
           (results s ++ match fst summary with Ok o => [o] | Raise _ => [] end)).

(** The outcome an item ends with, given what its guarded block computed. *)
Definition outcome_of (file : File) (r : Res Outcome) : Outcome :=
  match r with
  | Ok o => o
  | Raise e => error_outcome (filename file) (str e)
  end.

(** The state after an accepted item: no file at [p], one more identifier
    drawn, the events [evs] logged, the outcome [o] appended. *)
Definition item_state (p : string) (evs : list Event) (o : Outcome) (s : State)
  : State :=
  mkState (delete p (fs s)) (upload_folder_exists s) (S (uuid_calls s))
          (log s ++ evs) (results s ++ [o]).

(** The [EvRemove] event of the [finally] block, when a file is there. *)
Definition removal (p : string) (m : gmap string string) : list Event :=
  if bool_decide (is_Some (m !! p)) then [EvRemove p] else [].

(** The state an item of a batch loop ends in, from the summary of its
    guarded block. *)
Definition item_end {Image} (env : Env Image)
    (summary : string -> File -> Res Outcome * list Event)
    (file : File) (s : State) : State :=
  if accepted file then
    let p := unique_path (uuid4 env (uuid_calls s)) file in
    item_state p
      (snd (summary p file) ++ removal p (fs_after_save env file p (fs s)))
      (outcome_of file (fst (summary p file))) s
  else set_results (results s ++ [not_allowed_outcome file]) s.

(** The outcome of an item that draws the [n]-th identifier. *)
Definition item_outcome {Image} (env : Env Image)
    (summary : string -> File -> Res Outcome * list Event)
    (file : File) (n : nat) : Outcome :=
  if accepted file
  then outcome_of file (fst (summary (unique_path (uuid4 env n) file) file))
  else not_allowed_outcome file.

(** The outcomes of a loop whose first accepted item draws the [n]-th
    identifier. *)
Fixpoint outcomes_from {Image} (env : Env Image)
    (summary : string -> File -> Res Outcome * list Event)
    (n : nat) (files : list File) : list Outcome :=
  match files with
  | [] => []
  | file :: files' =>
      item_outcome env summary file n
      :: outcomes_from env summary (if accepted file then S n else n) files'
  end.

(** The state after the loop over [files]. *)
Definition loop_end {Image} (env : Env Image)
    (summary : string -> File -> Res Outcome * list Event)
    (files : list File) (s : State) : State :=
  foldl (fun s file => item_end env summary file s) s files.

(** The state once the upload folder is there. *)
Definition folder_ready (s : State) : State :=
  if upload_folder_exists s then s
  else mkState (fs s) true (uuid_calls s)
               (log s ++ [EvMakedirs UPLOAD_FOLDER]) (results s).

(** The state in which a batch loop starts: [results] is empty and the
    upload folder exists. *)
Definition loop_start (s : State) : State := folder_ready (set_results [] s).

(** The response of the single-file route to what its [try] block computed. *)
Definition single_response (r : Res string) : Response :=
  match r with
  | Ok formatted_text => (TextBody formatted_text, 200%nat)
  | Raise e =>
      (ErrorBody ("An error occurred during OCR processing: " +:+ str e), 500%nat)
  end.

(** The name an outcome carries for an item. *)
Definition display_name (file : File) : string :=
  if file_truthy file then filename file else "Unknown".

(** C5 as the specification states it: in augmented mode, whatever one
    variant does, the text of the other variant is produced.  For an
    accepted item whose file was saved, the text the enhanced variant
    yields is the text of the outcome, and the text the identity variant
    yields is its [original_text]. *)
Definition transforms_run_independently : Prop :=
  forall (Image : Type) (env : Env Image) (f : File) (s s' : State) (o : Outcome),
    accepted f = true ->
    let p := unique_path (uuid4 env (uuid_calls s)) f in
    save_outcome env f p = Saved ->
    augmented_item env f s = (Ok tt, s') ->
    results s' = results s ++ [o] ->
    (forall t, fst (augmentation_pure env p (content f)) = Ok t -> o_text o = t) /\
    (forall t, identity_pure env p (content f) = Ok t -> o_original_text o = Some t).

(** ** Sample inputs *)

Definition sample_box (y : Q) : Box :=
  mkBox (mkPoint 0 (y - 10)) (mkPoint 40 (y - 10))
        (mkPoint 40 (y + 10)) (mkPoint 0 (y + 10)).

(** A fragment whose anchor has the vertical position [y]. *)
Definition fragment_at (y : Q) (t : string) : Detection :=
  mkDetection (sample_box y) t 1.

Definition one_fragment (t : string) : OcrResult :=
  Some [Some [fragment_at 100 t]].

(** Every collaborator answers; the detector reads "plain" in the stored
    file and "sharp" in the processed array. *)
Definition env_ok : Env unit :=
  mkEnv unit (fun n => "id") (fun _ _ => Saved)
        (fun _ _ => Ok (one_fragment "plain")) (fun _ _ => Some tt)
        (fun _ => Ok tt) (fun _ => Ok tt) (fun _ => Ok (one_fragment "sharp")).

(** The detector fails on the stored file. *)
Definition env_identity_fails : Env unit :=
  mkEnv unit (fun n => "id") (fun _ _ => Saved)
        (fun _ _ => Raise (LibError "detector failed")) (fun _ _ => Some tt)
        (fun _ => Ok tt) (fun _ => Ok tt) (fun _ => Ok (one_fragment "sharp")).


Definition scan_png : File := mkFile "scan.png" "raw bytes".
Definition photo_jpg : File := mkFile "photo.JPG" "raw bytes".
Definition anim_gif : File := mkFile "anim.gif" "raw bytes".

Definition empty_state : State := mkState ∅ false 0 [] [].

(** ** Vocabulary of the further properties *)


(** Fragments of [l] with equal keys [(y, x)] are equal. *)
Definition distinct_keys (l : list Item) : Prop :=
  forall a b, a ∈ l -> b ∈ l -> tied lt_yx a b = true -> a = b.

(** A pixel coordinate: a whole number from 0 up to 2^52.  On these the
    float operations of the source are exact. *)
Definition pixel (q : Q) : Prop :=
  exists n : Z, (0 <= n < 2 ^ 52)%Z /\ q = inject_Z n.

(** The three coordinates of a box that the reconstruction reads are pixel
    coordinates. *)
Definition pixel_box (d : Detection) : Prop :=
  pixel (px (p0 (det_box d))) /\ pixel (py (p0 (det_box d))) /\
  pixel (py (p2 (det_box d))).

(** The sum of the word counts of the detected texts. *)
Definition words_detected (ds : list Detection) : nat :=
  sum_list (map (fun d => len_split (det_text d)) ds).

(** Kinds of events. *)
Definition is_save (ev : Event) : bool :=
  match ev with EvSave _ => true | _ => false end.

Definition is_makedirs (ev : Event) : bool :=
  match ev with EvMakedirs _ => true | _ => false end.

(** ** Sample inputs of the further properties *)

(** The detector finds nothing, in the stored file and in the processed
    array. *)
Definition env_blank : Env unit :=
  mkEnv unit (fun n => "id") (fun _ _ => Saved)
        (fun _ _ => Ok None) (fun _ _ => Some tt)
        (fun _ => Ok tt) (fun _ => Ok tt) (fun _ => Ok (Some [None])).

(** [file.save] fails after it created an empty destination. *)
Definition env_disk_full : Env unit :=
  mkEnv unit (fun n => "id")
        (fun _ _ => SaveFailed (LibError "disk full") (Some ""))
        (fun _ _ => Ok (one_fragment "plain")) (fun _ _ => Some tt)
        (fun _ => Ok tt) (fun _ => Ok tt) (fun _ => Ok (one_fragment "sharp")).

(** An upload whose name is an absolute path, and a state in which a file
    is stored at that path. *)
Definition absolute_png : File := mkFile "/srv/data/scan.png" "raw bytes".
Definition occupied_state : State :=
  mkState {[ "/srv/data/scan.png" := "kept" ]} true 0 [] [].

Definition unnamed_file : File := mkFile "" "raw bytes".

(** A fragment of height 20 whose box starts at [x] and is centred at
    height [y]. *)
Definition fragment_xy (x y : Q) (t : string) : Detection :=
  mkDetection (mkBox (mkPoint x (y - 10)) (mkPoint (x + 40) (y - 10))
                     (mkPoint (x + 40) (y + 10)) (mkPoint x (y + 10))) t 1.

(** A fragment whose box is not symmetric about a whole height. *)
Definition slanted_fragment : Detection :=
  mkDetection (mkBox (mkPoint 7 10) (mkPoint 90 12)
                     (mkPoint 92 45) (mkPoint 9 43)) "slanted" 1.

(** The text [10 km] with the no-break space U+00A0 between the number
    and the unit, and the text [a b] with the em space U+2003. *)
Definition no_break_text : string :=
  "10" +:+ String (ascii_of_nat 194) (String (ascii_of_nat 160) "km").
Definition em_space_text : string :=
  "a" +:+ String (ascii_of_nat 226)
            (String (ascii_of_nat 128) (String (ascii_of_nat 131) "b")).

(** * Properties *)

(** ** Stable sorting *)

Section StableSort.
Context {A : Type} (lt : A -> A -> bool).
Hypothesis lt_irrefl : forall a, lt a a = false.
Hypothesis lt_trans : forall a b c, lt a b = true -> lt b c = true -> lt a c = true.
Hypothesis lt_cotrans : forall a b c, lt a c = true -> lt a b = true \/ lt b c = true.

Lemma lt_asym a b : lt a b = true -> lt b a = false.
Proof.
  intros Hab. destruct (lt b a) eqn:Hba; [|reflexivity].
  rewrite <- (lt_irrefl a). symmetry. eauto.
Qed.

Lemma insert_sorted_perm a l : insert_sorted lt a l ≡ₚ a :: l.
Proof.
  induction l as [|b l IH]; simpl; [reflexivity|].
  destruct (lt a b); [reflexivity|].
  rewrite IH. apply perm_swap.
Qed.

Lemma insert_sorted_sorted a l :
  StronglySorted (not_after lt) l -> StronglySorted (not_after lt) (insert_sorted lt a l).
Proof.
  induction 1 as [|b l Hl IH Hb]; simpl.
  - repeat constructor.
  - destruct (lt a b) eqn:Hab.
    + constructor; [constructor; assumption|].
      constructor; [exact (lt_asym _ _ Hab)|].
      eapply Forall_impl; [exact Hb|]. intros c Hbc. unfold not_after in *.
      destruct (lt c a) eqn:Hca; [|reflexivity].
      rewrite <- Hbc. symmetry. eauto.
    + constructor; [assumption|].
      rewrite insert_sorted_perm. constructor; assumption.
Qed.

Lemma insert_sorted_stable k a l :
  StronglySorted (not_after lt) l ->
  List.filter (tied lt k) (insert_sorted lt a l)
  = List.filter (tied lt k) l ++ List.filter (tied lt k) [a].
Proof.
  induction 1 as [|b l Hl IH Hb]; [reflexivity|].
  cbn [insert_sorted]. destruct (lt a b) eqn:Hab.
  - cbn [List.filter]. destruct (tied lt k a) eqn:Hka.
    + assert (Hnone : forall c, c = b \/ not_after lt b c -> tied lt k c = false).
      { intros c Hc. unfold tied in *.
        apply andb_true_iff in Hka as [Hka1 Hka2].
        apply negb_true_iff in Hka1, Hka2.
        assert (Hkb : lt k b = true).
        { destruct (lt_cotrans a k b Hab) as [H|H]; [congruence|exact H]. }
        destruct Hc as [->|Hc]; [rewrite Hkb; reflexivity|].
        destruct (lt_cotrans k c b Hkb) as [H|H].
        - rewrite H. reflexivity.
        - unfold not_after in Hc. congruence. }
      rewrite (Hnone b) by (left; reflexivity).
      replace (List.filter (tied lt k) l) with (@nil A); [reflexivity|].
      symmetry. clear IH Hl. induction Hb as [|c l Hc Hb IH]; [reflexivity|].
      cbn [List.filter]. rewrite (Hnone c) by (right; exact Hc). exact IH.
    + rewrite app_nil_r. reflexivity.
  - cbn [List.filter]. rewrite IH. destruct (tied lt k b); reflexivity.
Qed.

Lemma sort_by_snoc l a : sort_by lt (l ++ [a]) = insert_sorted lt a (sort_by lt l).
Proof. unfold sort_by. rewrite foldl_app. reflexivity. Qed.

Lemma sort_by_perm l : sort_by lt l ≡ₚ l.
Proof.
  induction l as [|a l IH] using rev_ind; [reflexivity|].
  rewrite sort_by_snoc, insert_sorted_perm, IH.
  apply Permutation_cons_append.
Qed.

Lemma sort_by_sorted l : StronglySorted (not_after lt) (sort_by lt l).
Proof.
  induction l as [|a l IH] using rev_ind; [constructor|].
  rewrite sort_by_snoc. apply insert_sorted_sorted, IH.
Qed.

(** Stability: the elements whose key equals that of [k] keep the order
    they had in the input. *)
Lemma sort_by_stable k l :
  List.filter (tied lt k) (sort_by lt l) = List.filter (tied lt k) l.
Proof.
  induction l as [|a l IH] using rev_ind; [reflexivity|].
  rewrite sort_by_snoc, insert_sorted_stable by apply sort_by_sorted.
  rewrite IH, List.filter_app. reflexivity.
Qed.
End StableSort.

(** ** The two key orders are strict weak orders *)

Lemma Qltb_lt a b : Qltb a b = true <-> (a < b)%Q.
Proof.
  unfold Qltb. rewrite negb_true_iff. split.
  - intros H. apply Qnot_le_lt. intros Hle.
    apply Qle_bool_iff in Hle. congruence.
  - intros H. destruct (Qle_bool b a) eqn:E; [|reflexivity].
    apply Qle_bool_iff in E. lra.
Qed.

Lemma Qltb_ge a b : Qltb a b = false <-> (b <= a)%Q.
Proof.
  unfold Qltb. rewrite negb_false_iff. apply Qle_bool_iff.
Qed.

Lemma tuple_ltb_spec y1 x1 y2 x2 :
  tuple_ltb (y1, x1) (y2, x2) = true
  <-> (y1 < y2)%Q \/ ((y1 == y2)%Q /\ (x1 < x2)%Q).
Proof.
  unfold tuple_ltb. cbn [fst snd].
  destruct (Qeq_bool y1 y2) eqn:E.
  - apply Qeq_bool_iff in E. rewrite Qltb_lt. split; [tauto|].
    intros [H|H]; [lra|tauto].
  - apply Qeq_bool_neq in E. rewrite Qltb_lt. split; [tauto|].
    intros [H|[H _]]; [exact H|contradiction].
Qed.

Lemma lt_yx_spec a b :
  lt_yx a b = true
  <-> (item_y a < item_y b)%Q \/
      ((item_y a == item_y b)%Q /\ (item_x a < item_x b)%Q).
Proof. apply tuple_ltb_spec. Qed.

Lemma lt_x_irrefl a : lt_x a a = false.
Proof. apply Qltb_ge. lra. Qed.

Lemma lt_x_trans a b c : lt_x a b = true -> lt_x b c = true -> lt_x a c = true.
Proof. unfold lt_x. rewrite !Qltb_lt. lra. Qed.

Lemma lt_x_cotrans a b c : lt_x a c = true -> lt_x a b = true \/ lt_x b c = true.
Proof.
  unfold lt_x. rewrite !Qltb_lt. intros H.
  destruct (Qlt_le_dec (item_x a) (item_x b)); [left; assumption|right; lra].
Qed.

Lemma lt_yx_irrefl a : lt_yx a a = false.
Proof.
  destruct (lt_yx a a) eqn:E; [|reflexivity].
  apply lt_yx_spec in E. lra.
Qed.

Lemma lt_yx_trans a b c : lt_yx a b = true -> lt_yx b c = true -> lt_yx a c = true.
Proof. rewrite !lt_yx_spec. lra. Qed.

Lemma lt_yx_cotrans a b c : lt_yx a c = true -> lt_yx a b = true \/ lt_yx b c = true.
Proof.
  rewrite !lt_yx_spec. intros H.
  destruct (Qlt_le_dec (item_y a) (item_y b)) as [?|Hy]; [lra|].
  destruct (Qlt_le_dec (item_y b) (item_y c)) as [?|Hy']; [lra|].
  destruct (Qlt_le_dec (item_x a) (item_x b)) as [?|Hx]; [left; lra|].
  right. lra.
Qed.

Lemma not_after_yx a b : not_after lt_yx a b <-> le_yx a b.
Proof.
  unfold not_after, le_yx. split.
  - intros H.
    destruct (Qlt_le_dec (item_y a) (item_y b)) as [?|Hy]; [left; assumption|].
    destruct (Qlt_le_dec (item_y b) (item_y a)) as [Hy'|Hy'].
    + assert (lt_yx b a = true) by (apply lt_yx_spec; lra). congruence.
    + destruct (Qlt_le_dec (item_x b) (item_x a)) as [Hx|Hx].
      * assert (lt_yx b a = true) by (apply lt_yx_spec; lra). congruence.
      * right. lra.
  - intros H. destruct (lt_yx b a) eqn:E; [|reflexivity].
    apply lt_yx_spec in E. lra.
Qed.

Lemma not_after_x a b : not_after lt_x a b <-> (item_x a <= item_x b)%Q.
Proof. apply Qltb_ge. Qed.

Lemma tied_x k a : tied lt_x k a = Qeq_bool (item_x a) (item_x k).
Proof.
  unfold tied, lt_x.
  destruct (Qeq_bool (item_x a) (item_x k)) eqn:E.
  - apply Qeq_bool_iff in E. apply andb_true_iff. rewrite !negb_true_iff, !Qltb_ge. lra.
  - apply Qeq_bool_neq in E. apply andb_false_iff. rewrite !negb_false_iff, !Qltb_lt.
    destruct (Qlt_le_dec (item_x k) (item_x a)); [left; assumption|right; lra].
Qed.

Lemma StronglySorted_weaken {A} (R S : A -> A -> Prop) l :
  (forall a b, R a b -> S a b) -> StronglySorted R l -> StronglySorted S l.
Proof.
  intros HRS. induction 1 as [|a l Hl IH Ha]; constructor; [exact IH|].
  eapply Forall_impl; [exact Ha|]. intros b. apply HRS.
Qed.

Lemma sort_yx_sorted l : StronglySorted le_yx (sort_by lt_yx l).
Proof.
  eapply StronglySorted_weaken; [|apply (sort_by_sorted lt_yx lt_yx_irrefl lt_yx_trans)].
  intros a b. apply not_after_yx.
Qed.

Lemma sort_x_sorted l :
  StronglySorted (fun a b => (item_x a <= item_x b)%Q) (sort_by lt_x l).
Proof.
  eapply StronglySorted_weaken; [|apply (sort_by_sorted lt_x lt_x_irrefl lt_x_trans)].
  intros a b. apply not_after_x.
Qed.

(** ** The walk of the clusterer *)

Lemma neighbours_snoc {A} (R : A -> A -> Prop) l x :
  neighbours R (l ++ [x]) <-> neighbours R l /\ (forall a, last l = Some a -> R a x).
Proof.
  induction l as [|a l IH]; [cbn; split; [intros _; split; [exact I|discriminate]|tauto]|].
  destruct l as [|b l].
  - cbn. split.
    + intros [H _]. split; [exact I|]. intros a0 [= <-]. exact H.
    + intros [_ H]. split; [apply H; reflexivity|exact I].
  - change (R a b /\ neighbours R ((b :: l) ++ [x])
            <-> (R a b /\ neighbours R (b :: l)) /\
                (forall a0, last (b :: l) = Some a0 -> R a0 x)).
    rewrite IH. tauto.
Qed.

(** Invariant rule for the walk: a property of (closed lines, open line,
    remaining fragments) kept by both kinds of step holds at the end. *)
Lemma spec_walk_inv (P : list (list Item) -> list Item -> list Item -> Prop) :
  (forall closed open la f rest, last open = Some la -> close la f = true ->
     P closed open (f :: rest) -> P closed (open ++ [f]) rest) ->
  (forall closed open la f rest, last open = Some la -> close la f = false ->
     P closed open (f :: rest) -> P (closed ++ [open]) [f] rest) ->
  forall rest closed open la, last open = Some la -> P closed open rest ->
    exists closed' open',
      spec_walk closed open la rest = closed' ++ [open'] /\ P closed' open' [].
Proof.
  intros Happend Hbreak. induction rest as [|f rest IH]; intros closed open la Hla HP.
  - exists closed, open. split; [reflexivity|exact HP].
  - cbn [spec_walk]. destruct (close la f) eqn:E.
    + apply IH; [apply last_snoc|]. eapply Happend; eassumption.
    + apply IH; [reflexivity|]. eapply Hbreak; eassumption.
Qed.

(** The source's loop computes the same lines as the walk, formatting each
    line when it is closed; it never raises. *)
Lemma group_loop_refines rest : forall closed open la,
  last open = Some la ->
  exists closed' open',
    spec_walk closed open la rest = closed' ++ [open'] /\ open' <> [] /\
    group_loop rest (map format_line closed) open
    = Ok (map format_line closed', open').
Proof.
  induction rest as [|f rest IH]; intros closed open la Hla.
  - exists closed, open. repeat split. intros ->. discriminate.
  - cbn [spec_walk group_loop]. rewrite Hla.
    change (Qle_bool (Qabs (item_y f - item_y la)%Q) line_threshold) with (close la f).
    destruct (close la f).
    + apply IH, last_snoc.
    + replace (map format_line closed ++ [format_line open])
        with (map format_line (closed ++ [open])) by apply map_app.
      apply IH. reflexivity.
Qed.

Lemma process_ocr_result_refines d ds more :
  process_ocr_result (first_page (d :: ds) more)
  = Ok (spec_format (spec_cluster (map text_coordinate (d :: ds)))).
Proof.
  unfold process_ocr_result, first_page, spec_cluster, spec_format.
  destruct (sort_by lt_yx (map text_coordinate (d :: ds))) as [|first rest]; [reflexivity|].
  destruct (group_loop_refines rest [] [first] first eq_refl)
    as (closed' & open' & Hwalk & Hne & Hloop).
  change (map format_line []) with (@nil string) in Hloop.
  rewrite Hwalk, Hloop.
  destruct open' as [|i open']; [contradiction|].
  rewrite map_app. reflexivity.
Qed.

(** *** What the walk produces *)

Lemma spec_walk_concat rest closed open la :
  last open = Some la ->
  concat (spec_walk closed open la rest) = concat closed ++ open ++ rest.
Proof.
  intros Hla.
  destruct (spec_walk_inv
    (fun c o r => concat c ++ o ++ r = concat closed ++ open ++ rest))
    with (rest := rest) (closed := closed) (open := open) (la := la)
    as (c' & o' & -> & H); try assumption; try reflexivity.
  - intros c o _ f r _ _ <-. rewrite <- (app_assoc o). reflexivity.
  - intros c o _ f r _ _ <-. rewrite concat_app. cbn. rewrite app_nil_r, <- app_assoc.
    reflexivity.
  - rewrite concat_app. cbn. rewrite !app_nil_r in *. exact H.
Qed.

Lemma spec_walk_nonempty rest closed open la :
  last open = Some la -> Forall (fun line => line <> []) closed ->
  Forall (fun line => line <> []) (spec_walk closed open la rest).
Proof.
  intros Hla Hc.
  destruct (spec_walk_inv
    (fun c o r => Forall (fun line : list Item => line <> []) (c ++ [o])))
    with (rest := rest) (closed := closed) (open := open) (la := la)
    as (c' & o' & -> & H); try assumption.
  - intros c o _ f r _ _ H. apply Forall_app in H as [H _]. apply Forall_app.
    split; [exact H|]. constructor; [|constructor]. intros E.
    apply app_eq_nil in E as [_ E]. discriminate.
  - intros c o _ f r _ _ H. apply Forall_app. split; [exact H|].
    constructor; [discriminate|constructor].
  - apply Forall_app. split; [exact Hc|]. constructor; [|constructor].
    intros ->. discriminate.
Qed.

Lemma spec_walk_chained rest closed open la :
  last open = Some la -> Forall chained closed -> chained open ->
  Forall chained (spec_walk closed open la rest).
Proof.
  intros Hla Hc Ho.
  destruct (spec_walk_inv (fun c o r => Forall chained (c ++ [o])))
    with (rest := rest) (closed := closed) (open := open) (la := la)
    as (c' & o' & -> & H); try assumption.
  - intros c o l f r Hl Hclose H. apply Forall_app in H as [H1 H2]. apply Forall_app.
    split; [exact H1|]. constructor; [|constructor].
    apply Forall_inv in H2. apply neighbours_snoc. split; [exact H2|].
    intros a Ha. rewrite Hl in Ha. injection Ha as <-. exact Hclose.
  - intros c o _ f r _ _ H. apply Forall_app. split; [exact H|].
    constructor; [exact I|constructor].
  - apply Forall_app. split; [exact Hc|]. constructor; [exact Ho|constructor].
Qed.

Lemma head_snoc_nonempty {A} (l : list A) x : l <> [] -> head (l ++ [x]) = head l.
Proof. destruct l; [contradiction|reflexivity]. Qed.

Lemma spec_walk_gaps rest closed open la :
  last open = Some la -> neighbours gap_between (closed ++ [open]) ->
  neighbours gap_between (spec_walk closed open la rest).
Proof.
  intros Hla Hc.
  destruct (spec_walk_inv
    (fun c o r => o <> [] /\ neighbours gap_between (c ++ [o])))
    with (rest := rest) (closed := closed) (open := open) (la := la)
    as (c' & o' & -> & _ & H); try assumption.
  - intros c o l f r Hl Hclose [Hne H]. split.
    { intros E. apply app_eq_nil in E as [_ E]. discriminate. }
    apply neighbours_snoc in H as [H1 H2]. apply neighbours_snoc.
    split; [exact H1|]. intros line Hline a b Ha Hb.
    rewrite head_snoc_nonempty in Hb by exact Hne. eapply H2; eassumption.
  - intros c o l f r Hl Hclose [Hne H]. split; [discriminate|].
    apply neighbours_snoc. split; [exact H|].
    intros line Hline a b Ha Hb. rewrite last_snoc in Hline.
    injection Hline as <-. cbn in Hb. injection Hb as <-.
    rewrite Hl in Ha. injection Ha as <-. exact Hclose.
  - split; [|exact Hc]. intros ->. discriminate.
Qed.

Lemma spec_cluster_walk fragments first rest :
  sort_by lt_yx fragments = first :: rest ->
  spec_cluster fragments = spec_walk [] [first] first rest.
Proof. unfold spec_cluster. intros ->. reflexivity. Qed.

Lemma spec_cluster_concat fragments :
  concat (spec_cluster fragments) = sort_by lt_yx fragments.
Proof.
  destruct (sort_by lt_yx fragments) as [|first rest] eqn:E.
  - unfold spec_cluster. rewrite E. reflexivity.
  - rewrite (spec_cluster_walk _ _ _ E), spec_walk_concat by reflexivity.
    reflexivity.
Qed.

Lemma spec_cluster_nonempty fragments :
  Forall (fun line => line <> []) (spec_cluster fragments).
Proof.
  destruct (sort_by lt_yx fragments) as [|first rest] eqn:E.
  - unfold spec_cluster. rewrite E. constructor.
  - rewrite (spec_cluster_walk _ _ _ E).
    apply spec_walk_nonempty; [reflexivity|constructor].
Qed.

Lemma spec_cluster_chained fragments : Forall chained (spec_cluster fragments).
Proof.
  destruct (sort_by lt_yx fragments) as [|first rest] eqn:E.
  - unfold spec_cluster. rewrite E. constructor.
  - rewrite (spec_cluster_walk _ _ _ E).
    apply spec_walk_chained; [reflexivity|constructor|exact I].
Qed.

Lemma spec_cluster_gaps fragments : neighbours gap_between (spec_cluster fragments).
Proof.
  destruct (sort_by lt_yx fragments) as [|first rest] eqn:E.
  - unfold spec_cluster. rewrite E. exact I.
  - rewrite (spec_cluster_walk _ _ _ E).
    apply spec_walk_gaps; [reflexivity|exact I].
Qed.

(** A sequence whose neighbours are all within the threshold stays in the
    open line, whatever its total spread. *)
Lemma spec_walk_all_close rest : forall closed open la,
  chained (la :: rest) -> spec_walk closed open la rest = closed ++ [open ++ rest].
Proof.
  induction rest as [|f rest IH]; intros closed open la H.
  - cbn. rewrite app_nil_r. reflexivity.
  - destruct H as [Hc H]. cbn [spec_walk]. rewrite Hc, IH by exact H.
    rewrite <- app_assoc. reflexivity.
Qed.

Lemma lt_yx_of_y_lt a b :
  (item_y a < item_y b)%Q -> lt_yx a b = true /\ lt_yx b a = false.
Proof.
  intros H. split; [apply lt_yx_spec; lra|].
  destruct (lt_yx b a) eqn:E; [|reflexivity]. apply lt_yx_spec in E. lra.
Qed.

Lemma close_of_delta a b :
  (Qabs (item_y b - item_y a) <= 18)%Q -> close a b = true.
Proof. intros H. apply Qle_bool_iff. exact H. Qed.

Lemma Permutation_three {A} (a b c : A) l :
  l ≡ₚ [a; b; c] ->
  l = [a; b; c] \/ l = [a; c; b] \/ l = [b; a; c] \/
  l = [b; c; a] \/ l = [c; a; b] \/ l = [c; b; a].
Proof.
  intros H. pose proof (Permutation_length H) as Hlen.
  destruct l as [|u [|v [|w [|? ?]]]]; try discriminate. clear Hlen.
  assert (Hu : In u [a; b; c]) by (eapply Permutation_in; [exact H|left; reflexivity]).
  destruct Hu as [<-|[<-|[<-|[]]]].
  - apply Permutation_cons_inv, Permutation_length_2_inv in H as [[= -> ->]|[= -> ->]]; tauto.
  - assert (H' : [v; w] ≡ₚ [a; c]).
    { apply (Permutation_cons_inv (a := b)). rewrite H. apply perm_swap. }
    apply Permutation_length_2_inv in H' as [[= -> ->]|[= -> ->]]; tauto.
  - assert (H' : [v; w] ≡ₚ [a; b]).
    { apply (Permutation_cons_inv (a := c)). rewrite H.
      symmetry. apply (Permutation_cons_append [a; b] c). }
    apply Permutation_length_2_inv in H' as [[= -> ->]|[= -> ->]]; tauto.
Qed.

(** The drift example: anchors 100, 115 and 130, given in any order. *)
Lemma drift_single_line (f1 f2 f3 : Item) input :
  (item_y f1 == 100)%Q -> (item_y f2 == 115)%Q -> (item_y f3 == 130)%Q ->
  input ≡ₚ [f1; f2; f3] ->
  spec_cluster input = [[f1; f2; f3]].
Proof.
  intros H1 H2 H3 Hperm.
  destruct (lt_yx_of_y_lt f1 f2) as [L12 L21]; [lra|].
  destruct (lt_yx_of_y_lt f2 f3) as [L23 L32]; [lra|].
  destruct (lt_yx_of_y_lt f1 f3) as [L13 L31]; [lra|].
  assert (Hsort : sort_by lt_yx input = [f1; f2; f3]).
  { apply Permutation_three in Hperm as [-> | [-> | [-> | [-> | [-> | ->]]]]];
      unfold sort_by; cbn [foldl insert_sorted];
      rewrite ?L12, ?L21, ?L23, ?L32, ?L13, ?L31; cbn [insert_sorted];
      rewrite ?L12, ?L21, ?L23, ?L32, ?L13, ?L31; reflexivity. }
  rewrite (spec_cluster_walk _ _ _ Hsort), spec_walk_all_close; [reflexivity|].
  repeat split; apply close_of_delta.
  - rewrite H1, H2. vm_compute. discriminate.
  - rewrite H2, H3. vm_compute. discriminate.
Qed.

(** ** [allowed_file] *)

Lemma append_nil_l s : "" +:+ s = s.
Proof. reflexivity. Qed.

Lemma append_cons a s t : String a s +:+ t = String a (s +:+ t).
Proof. reflexivity. Qed.

Lemma contains_append_sep c pre post : contains c (pre +:+ String c post) = true.
Proof.
  induction pre as [|b pre IH].
  - rewrite append_nil_l. cbn [contains]. rewrite Ascii.eqb_refl. reflexivity.
  - rewrite append_cons. cbn [contains]. rewrite IH. destruct (Ascii.eqb b c); reflexivity.
Qed.

Lemma rsplit_last_none c s : rsplit_last c s = None <-> contains c s = false.
Proof.
  induction s as [|a s IH]; cbn; [tauto|].
  destruct (rsplit_last c s) as [[pre post]|].
  - destruct (Ascii.eqb a c); [split; discriminate|].
    split; [discriminate|]. intros H. apply IH in H. discriminate.
  - destruct (Ascii.eqb a c); [split; discriminate|]. tauto.
Qed.

Lemma rsplit_last_some c s pre post :
  rsplit_last c s = Some (pre, post)
  <-> s = pre +:+ String c post /\ contains c post = false.
Proof.
  revert pre. induction s as [|a s IH]; intros pre; cbn.
  - split; [discriminate|]. intros [H _]. destruct pre; discriminate.
  - destruct (rsplit_last c s) as [[pre' post']|] eqn:E.
    + split.
      * intros [= <- <-]. destruct (proj1 (IH pre') eq_refl) as [-> H].
        split; [reflexivity|exact H].
      * intros [H Hpost]. destruct pre as [|b pre];
          rewrite ?append_nil_l, ?append_cons in H.
        -- injection H as -> ->. apply rsplit_last_none in Hpost. congruence.
        -- injection H as -> H.
           assert (E' : Some (pre', post') = Some (pre, post))
             by (apply IH; split; assumption).
           congruence.
    + apply rsplit_last_none in E. split.
      * destruct (Ascii.eqb a c) eqn:Ea; [|discriminate].
        apply Ascii.eqb_eq in Ea as ->. intros [= <- <-].
        split; [reflexivity|exact E].
      * intros [H Hpost]. destruct pre as [|b pre];
          rewrite ?append_nil_l, ?append_cons in H.
        -- injection H as -> ->. rewrite Ascii.eqb_refl. reflexivity.
        -- injection H as -> H. subst s.
           rewrite contains_append_sep in E. discriminate.
Qed.

Lemma contains_false_iff c s :
  contains c s = false <-> forall before after, s <> before +:+ String c after.
Proof.
  split.
  - intros H before after ->. rewrite contains_append_sep in H. discriminate.
  - induction s as [|a s IH]; intros H; [reflexivity|]. cbn [contains].
    destruct (Ascii.eqb a c) eqn:E.
    + apply Ascii.eqb_eq in E as ->. exfalso. apply (H "" s). reflexivity.
    + apply IH. intros before after ->. apply (H (String a before) after).
      reflexivity.
Qed.

(** The extension of a name is the text after the split point of
    [rsplit('.', 1)]. *)
Lemma extension_of_spec name ext :
  extension_of name ext <-> exists stem, rsplit_last "." name = Some (stem, ext).
Proof.
  unfold extension_of. split.
  - intros [[stem ->] Hdot]. exists stem. apply rsplit_last_some.
    split; [reflexivity|]. apply contains_false_iff. exact Hdot.
  - intros [stem H]. apply rsplit_last_some in H as [-> Hdot].
    split; [exists stem; reflexivity|].
    exact (proj1 (contains_false_iff "." ext) Hdot).
Qed.

(** Letter case, as [str.lower] treats it. *)
Lemma same_letter_lower a b : same_letter a b -> lower_ascii a = lower_ascii b.
Proof.
  assert (Hcap : forall x y : ascii,
            (65 <= nat_of_ascii x <= 90)%nat ->
            nat_of_ascii y = (nat_of_ascii x + 32)%nat ->
            lower_ascii x = lower_ascii y).
  { intros x y Hx Hy. unfold lower_ascii. cbv zeta.
    assert (Hc : (65 <=? nat_of_ascii x)%nat && (nat_of_ascii x <=? 90)%nat = true).
    { apply andb_true_iff. split; apply Nat.leb_le; lia. }
    assert (Hd : (65 <=? nat_of_ascii y)%nat && (nat_of_ascii y <=? 90)%nat = false).
    { apply andb_false_iff. right. apply Nat.leb_gt. lia. }
    rewrite Hc, Hd, <- Hy. apply ascii_nat_embedding. }
  intros [-> | [[Ha Hb] | [Hb Ha]]]; [reflexivity| |].
  - apply Hcap; assumption.
  - symmetry. apply Hcap; assumption.
Qed.

Lemma same_letter_lower_ascii a : same_letter a (lower_ascii a).
Proof.
  unfold same_letter, lower_ascii. cbv zeta.
  destruct ((65 <=? nat_of_ascii a)%nat && (nat_of_ascii a <=? 90)%nat) eqn:E;
    [|left; reflexivity].
  apply andb_true_iff in E as [E1 E2].
  apply Nat.leb_le in E1. apply Nat.leb_le in E2.
  right. left. split; [lia|]. apply nat_ascii_embedding. lia.
Qed.

Lemma same_ignoring_case_lower s : same_ignoring_case s (lower s).
Proof.
  induction s as [|a s IH]; [exact I|]. cbn [lower same_ignoring_case].
  split; [apply same_letter_lower_ascii|exact IH].
Qed.

Lemma same_ignoring_case_eq s : forall t,
  same_ignoring_case s t -> lower s = lower t.
Proof.
  induction s as [|a s IH]; intros [|b t] H; cbn [same_ignoring_case] in H;
    try contradiction; [reflexivity|].
  destruct H as [Hab H]. cbn [lower].
  rewrite (same_letter_lower a b Hab), (IH t H). reflexivity.
Qed.

(** The membership test of the source decides the extensions of the
    specification. *)
Lemma lower_in_allowed ext :
  lower ext ∈ ALLOWED_EXTENSIONS
  <-> same_ignoring_case ext "png" \/ same_ignoring_case ext "jpg" \/
      same_ignoring_case ext "jpeg".
Proof.
  unfold ALLOWED_EXTENSIONS. rewrite !elem_of_union, !elem_of_singleton. split.
  - intros [[H|H]|H]; rewrite <- H; auto using same_ignoring_case_lower.
  - intros [H|[H|H]]; apply same_ignoring_case_eq in H; rewrite H; cbn; auto.
Qed.

(** [allowed_file] never raises, and accepts exactly the names with an
    allowed extension. *)
Lemma allowed_file_spec name :
  exists b, allowed_file name = Ok b /\ (b = true <-> has_allowed_extension name).
Proof.
  unfold allowed_file, rsplit1.
  destruct (contains "." name) eqn:Hdot.
  - destruct (rsplit_last "." name) as [[pre post]|] eqn:E.
    + cbn. eexists. split; [reflexivity|]. rewrite bool_decide_eq_true.
      rewrite lower_in_allowed. split.
      * intros H. exists post. split; [|exact H].
        apply extension_of_spec. exists pre. exact E.
      * intros (ext & Hext & Hcase).
        apply extension_of_spec in Hext as [stem Hext].
        rewrite E in Hext. injection Hext as _ <-. exact Hcase.
    + apply rsplit_last_none in E. congruence.
  - exists false. split; [reflexivity|]. split; [discriminate|].
    intros (ext & Hext & _). apply extension_of_spec in Hext as [stem Hext].
    apply rsplit_last_none in Hdot. congruence.
Qed.

Lemma allowed_file_total name : exists b, allowed_file name = Ok b.
Proof. destruct (allowed_file_spec name) as (b & H & _). eauto. Qed.

(** ** Running the routes *)

Lemma os_path_join_not_folder b : String.eqb (os_path_join UPLOAD_FOLDER b) UPLOAD_FOLDER = false.
Proof.
  unfold os_path_join, UPLOAD_FOLDER.
  destruct (starts_with_slash b) eqn:E.
  - destruct b as [|a b]; [discriminate|]. cbn in E.
    apply Ascii.eqb_eq in E as ->. reflexivity.
  - reflexivity.
Qed.

Section RoutesFacts.
Context {Image : Type} (env : Env Image).

(** The [finally] block never raises and leaves no file at the path. *)
Lemma cleanup_run b s :
  let p := os_path_join UPLOAD_FOLDER b in
  cleanup p s
  = (Ok tt, mkState (delete p (fs s)) (upload_folder_exists s) (uuid_calls s)
              (log s ++ removal p (fs s)) (results s)).
Proof.
  intros p. unfold cleanup, bind, os_path_exists, removal. subst p.
  rewrite os_path_join_not_folder.
  set (p := os_path_join UPLOAD_FOLDER b).
  destruct (fs s !! p) as [c|] eqn:E.
  - rewrite bool_decide_eq_true_2 by eauto.
    unfold os_remove, bind, emit. cbn. rewrite E. reflexivity.
  - rewrite bool_decide_eq_false_2 by (intros [? ?]; discriminate).
    unfold ret. rewrite delete_id by exact E. rewrite app_nil_r.
    destruct s; reflexivity.
Qed.
Lemma file_and_allowed_run f s : file_and_allowed f s = (Ok (accepted f), s).
Proof.
  unfold file_and_allowed, accepted.
  destruct (file_truthy f); [|reflexivity].
  destruct (allowed_file_total (filename f)) as [b ->]. reflexivity.
Qed.

Lemma file_save_run f p s :
  file_save env f p s
  = (match save_outcome env f p with Saved => Ok tt | SaveFailed e _ => Raise e end,
     mkState (fs_after_save env f p (fs s)) (upload_folder_exists s)
             (uuid_calls s) (log s ++ [EvSave p]) (results s)).
Proof.
  unfold file_save, fs_after_save, bind, emit.
  destruct (save_outcome env f p) as [|e [c|]]; reflexivity.
Qed.

Lemma ocr_model_ocr_path_run p c s :
  fs s !! p = Some c ->
  ocr_model_ocr_path env p s
  = (detect_file env p c, set_log (log s ++ [EvOcrPath p]) s).
Proof.
  intros H. unfold ocr_model_ocr_path, bind, emit. cbn. rewrite H. reflexivity.
Qed.

Lemma identity_steps_run p c s :
  fs s !! p = Some c ->
  identity_steps env p s
  = (identity_pure env p c, set_log (log s ++ [EvOcrPath p]) s).
Proof.
  intros H. unfold identity_steps, ocr_model_ocr_path, identity_pure, bind, emit, lift.
  cbn. rewrite H. destruct (detect_file env p c); reflexivity.
Qed.

Lemma augmentation_steps_run p c s :
  fs s !! p = Some c ->
  augmentation_steps env p s
  = (fst (augmentation_pure env p c),
     set_log (log s ++ snd (augmentation_pure env p c)) s).
Proof.
  intros H.
  unfold augmentation_steps, augmentation_pure, cv2_imread, cv2_cvtColor,
    cv2_threshold, ocr_model_ocr_image, bind, emit, lift.
  cbn. rewrite H.
  destruct (cvtColor env (decode_image env p c)) as [g|e]; cbn;
    [|rewrite <- app_assoc; reflexivity].
  destruct (threshold env g) as [a|e]; cbn;
    [|rewrite <- !app_assoc; reflexivity].
  rewrite <- !app_assoc.
  destruct (detect_image env a); reflexivity.
Qed.

Lemma batch_try_run f p s :
  batch_try env f p s = try_end env f p (simple_summary env p f) s.
Proof.
  unfold batch_try, try_end, simple_summary. unfold bind at 1.
  rewrite file_save_run.
  destruct (save_outcome env f p) as [|e partial] eqn:Hsave.
  - cbv beta iota. unfold bind at 1. erewrite ocr_model_ocr_path_run; cycle 1.
    { cbn. unfold fs_after_save. rewrite Hsave. apply lookup_insert_eq. }
    unfold identity_pure.
    destruct (detect_file env p (content f)) as [r|e]; cbn;
      [|rewrite app_nil_r, <- app_assoc; reflexivity].
    unfold bind, lift.
    destruct (process_ocr_result r); cbn;
      rewrite <- ?app_assoc, ?app_nil_r; reflexivity.
  - cbn. rewrite app_nil_r. reflexivity.
Qed.

Lemma augmented_try_run f p s :
  augmented_try env f p s = try_end env f p (augmented_summary env p f) s.
Proof.
  unfold augmented_try, try_end, augmented_summary. unfold bind at 1.
  rewrite file_save_run.
  destruct (save_outcome env f p) as [|e partial] eqn:Hsave.
  - assert (Hfile : fs_after_save env f p (fs s) !! p = Some (content f)).
    { unfold fs_after_save. rewrite Hsave. apply lookup_insert_eq. }
    cbv beta iota. unfold bind at 1. erewrite identity_steps_run by exact Hfile.
    destruct (identity_pure env p (content f)) as [t|e]; cbn;
      [|rewrite app_nil_r, <- app_assoc; reflexivity].
    unfold bind at 1. erewrite augmentation_steps_run by exact Hfile.
    destruct (augmentation_pure env p (content f)) as [[t'|e] evs]; cbn;
      rewrite <- ?app_assoc, ?app_nil_r; reflexivity.
  - cbn. rewrite app_nil_r. reflexivity.
Qed.

Lemma delete_after_save f p m : delete p (fs_after_save env f p m) = delete p m.
Proof.
  unfold fs_after_save.
  destruct (save_outcome env f p) as [|e [c|]]; try reflexivity;
    apply delete_insert_eq.
Qed.

(** A guarded block followed by the handler and the [finally] block. *)
Lemma guarded_run (try_block : M unit) f b summary s :
  let p := os_path_join UPLOAD_FOLDER b in
  try_block s = try_end env f p summary s ->
  try_finally (try_except try_block (batch_except f)) (cleanup p) s
  = (Ok tt,
     mkState (delete p (fs s)) (upload_folder_exists s) (uuid_calls s)
             (log s ++ snd summary ++ removal p (fs_after_save env f p (fs s)))
             (results s ++ [outcome_of f (fst summary)])).
Proof.
  intros p Htry. unfold try_finally, try_except. rewrite Htry. unfold try_end.
  destruct summary as [[o|e] evs]; cbn [fst snd outcome_of];
    unfold batch_except, results_append; subst p; rewrite cleanup_run; cbn;
    rewrite delete_after_save, <- ?app_assoc, ?app_nil_r; reflexivity.
Qed.

Lemma batch_item_run f s :
  batch_item env f s = (Ok tt, item_end env (simple_summary env) f s).
Proof.
  unfold batch_item, item_end. unfold bind at 1. rewrite file_and_allowed_run.
  destruct (accepted f); [|reflexivity].
  unfold bind, uuid_uuid4, unique_path.
  rewrite (guarded_run _ f _ (simple_summary env _ f)) by apply batch_try_run.
  reflexivity.
Qed.

Lemma augmented_item_run f s :
  augmented_item env f s = (Ok tt, item_end env (augmented_summary env) f s).
Proof.
  unfold augmented_item, item_end. unfold bind at 1. rewrite file_and_allowed_run.
  destruct (accepted f); [|reflexivity].
  unfold bind, uuid_uuid4, unique_path.
  rewrite (guarded_run _ f _ (augmented_summary env _ f)) by apply augmented_try_run.
  reflexivity.
Qed.
(** *** Loops and routes *)

Lemma for_each_run (item : File -> M unit) (item_end1 : File -> State -> State) :
  (forall f s, item f s = (Ok tt, item_end1 f s)) ->
  forall files s,
    for_each files item s = (Ok tt, foldl (fun s f => item_end1 f s) s files).
Proof.
  intros Hitem. induction files as [|f files IH]; intros s; [reflexivity|].
  cbn [for_each foldl]. unfold bind. rewrite Hitem. apply IH.
Qed.

Lemma ensure_upload_folder_run s :
  ensure_upload_folder s = (Ok tt, folder_ready s).
Proof.
  unfold ensure_upload_folder, folder_ready, bind, os_path_exists. cbn.
  destruct (upload_folder_exists s) eqn:E; [reflexivity|].
  unfold os_makedirs, bind, emit, os_path_exists. cbn. rewrite E. reflexivity.
Qed.

Lemma batch_route_run item summary request files s :
  (forall f s, item f s = (Ok tt, item_end env summary f s)) ->
  request_files request !! "files" = Some files ->
  nothing_selected files = false ->
  batch_route item request s
  = (Ok (ResultsBody (results (loop_end env summary files (loop_start s))), 200%nat),
     loop_end env summary files (loop_start s)).
Proof.
  intros Hitem Hfiles Hsel. unfold batch_route. rewrite Hfiles, Hsel.
  unfold bind at 1. unfold results_init.
  unfold bind at 1. rewrite ensure_upload_folder_run.
  unfold bind at 1. rewrite (for_each_run item (item_end env summary) Hitem).
  reflexivity.
Qed.

Lemma batch_route_total item summary request s :
  (forall f s, item f s = (Ok tt, item_end env summary f s)) ->
  exists response s', batch_route item request s = (Ok response, s').
Proof.
  intros Hitem. unfold batch_route.
  destruct (request_files request !! "files") as [files|]; [|unfold ret; eauto].
  destruct (nothing_selected files); [unfold ret; eauto|].
  unfold bind at 1. unfold results_init.
  unfold bind at 1. rewrite ensure_upload_folder_run.
  unfold bind at 1. rewrite (for_each_run item (item_end env summary) Hitem).
  unfold bind, results_get, ret. eauto.
Qed.

Section Loop.
Variable summary : string -> File -> Res Outcome * list Event.

Lemma results_item_end f s :
  results (item_end env summary f s)
  = results s ++ [item_outcome env summary f (uuid_calls s)].
Proof. unfold item_end, item_outcome. destruct (accepted f); reflexivity. Qed.

Lemma uuid_calls_item_end f s :
  uuid_calls (item_end env summary f s)
  = if accepted f then S (uuid_calls s) else uuid_calls s.
Proof. unfold item_end. destruct (accepted f); reflexivity. Qed.

Lemma loop_end_app l1 l2 s :
  loop_end env summary (l1 ++ l2) s
  = loop_end env summary l2 (loop_end env summary l1 s).
Proof. apply foldl_app. Qed.

Lemma results_loop_end files : forall s,
  results (loop_end env summary files s)
  = results s ++ outcomes_from env summary (uuid_calls s) files.
Proof.
  induction files as [|f files IH]; intros s; cbn [loop_end foldl outcomes_from].
  - rewrite app_nil_r. reflexivity.
  - fold (loop_end env summary files (item_end env summary f s)).
    rewrite IH, results_item_end, uuid_calls_item_end, <- app_assoc. reflexivity.
Qed.

Lemma length_outcomes_from files : forall n,
  length (outcomes_from env summary n files) = length files.
Proof.
  induction files as [|f files IH]; intros n; cbn; [reflexivity|].
  rewrite IH. reflexivity.
Qed.

Lemma outcomes_from_app l1 : forall l2 n,
  outcomes_from env summary n (l1 ++ l2)
  = outcomes_from env summary n l1
    ++ outcomes_from env summary (n + length (List.filter accepted l1)) l2.
Proof.
  induction l1 as [|f l1 IH]; intros l2 n.
  - cbn. rewrite Nat.add_0_r. reflexivity.
  - cbn [app outcomes_from List.filter]. rewrite IH.
    destruct (accepted f); cbn [length]; [|reflexivity].
    rewrite Nat.add_succ_r. reflexivity.
Qed.

Lemma item_outcome_of_item (item : File -> M unit) f n :
  (forall f s, item f s = (Ok tt, item_end env summary f s)) ->
  outcome_of_item item f (item_outcome env summary f n).
Proof.
  intros Hitem. exists (mkState ∅ false n [] []), (item_end env summary f (mkState ∅ false n [] [])).
  split; [apply Hitem|]. rewrite results_item_end. reflexivity.
Qed.

Hypothesis summary_names : forall p f o,
  fst (summary p f) = Ok o -> o_filename o = filename f.

Lemma o_filename_item_outcome f n :
  o_filename (item_outcome env summary f n) = display_name f.
Proof.
  unfold item_outcome, display_name, accepted, not_allowed_outcome.
  destruct (file_truthy f) eqn:Ht; [|reflexivity]. cbn [andb].
  destruct (allowed_file (filename f)) as [[|]|]; try reflexivity.
  destruct (fst (summary (unique_path (uuid4 env n) f) f)) as [o|e] eqn:E;
    [|reflexivity].
  apply (summary_names _ _ _ E).
Qed.

Lemma outcomes_from_Forall2 (item : File -> M unit) files :
  (forall f s, item f s = (Ok tt, item_end env summary f s)) ->
  forall n,
    Forall2 (fun f o => outcome_of_item item f o /\ o_filename o = display_name f)
            files (outcomes_from env summary n files).
Proof.
  intros Hitem. induction files as [|f files IH]; intros n; constructor.
  - split; [apply item_outcome_of_item, Hitem|apply o_filename_item_outcome].
  - apply IH.
Qed.
End Loop.
End RoutesFacts.

(** ** Validation and the single-file route *)

Lemma not_in_allowed_gif : "gif" ∉ ALLOWED_EXTENSIONS.
Proof.
  unfold ALLOWED_EXTENSIONS. rewrite !not_elem_of_union, !not_elem_of_singleton.
  repeat split; discriminate.
Qed.

Lemma gif_not_allowed stem : ~ has_allowed_extension (stem +:+ ".gif").
Proof.
  intros (ext & Hext & Hcase).
  apply extension_of_spec in Hext as [stem' E].
  assert (E' : rsplit_last "." (stem +:+ String "." "gif") = Some (stem, "gif"))
    by (apply rsplit_last_some; split; reflexivity).
  change (stem +:+ ".gif") with (stem +:+ String "." "gif") in E.
  rewrite E' in E. injection E as <- <-.
  apply lower_in_allowed in Hcase. exact (not_in_allowed_gif Hcase).
Qed.

Lemma accepted_spec f : accepted f = true <-> has_allowed_extension (filename f).
Proof.
  unfold accepted, file_truthy.
  destruct (allowed_file_spec (filename f)) as (b & -> & Hb). split.
  - intros H. apply andb_true_iff in H as [_ H]. apply Hb, H.
  - intros H. apply andb_true_iff. split; [|apply Hb, H].
    destruct H as (ext & [[stem ->] _] & _). destruct stem; reflexivity.
Qed.

Lemma accepted_false f : accepted f = false <-> ~ has_allowed_extension (filename f).
Proof.
  rewrite <- accepted_spec. destruct (accepted f); split; intros H; congruence.
Qed.

Lemma nothing_selected_false files :
  (exists f, f ∈ files /\ filename f <> "") -> nothing_selected files = false.
Proof.
  intros (f & Hin & Hname). unfold nothing_selected.
  destruct files as [|f0 files]; [inversion Hin|].
  destruct (forallb _ (f0 :: files)) eqn:E; [|reflexivity].
  rewrite forallb_forall in E. apply list_elem_of_In in Hin.
  apply E, String.eqb_eq in Hin. contradiction.
Qed.

Section SingleRoute.
Context {Image : Type} (env : Env Image).

Lemma simple_summary_names p f o :
  fst (simple_summary env p f) = Ok o -> o_filename o = filename f.
Proof.
  unfold simple_summary.
  destruct (save_outcome env f p); [|discriminate].
  destruct (identity_pure env p (content f)); [|discriminate].
  intros [= <-]. reflexivity.
Qed.

Lemma augmented_summary_names p f o :
  fst (augmented_summary env p f) = Ok o -> o_filename o = filename f.
Proof.
  unfold augmented_summary.
  destruct (save_outcome env f p); [|discriminate].
  destruct (identity_pure env p (content f)); [|discriminate].
  destruct (augmentation_pure env p (content f)) as [[t|e] evs]; [|discriminate].
  intros [= <-]. reflexivity.
Qed.

Lemma single_try_run p c s :
  fs s !! p = Some c ->
  try_except (single_try env p) single_except s
  = (Ok (single_response (identity_pure env p c)),
     set_log (log s ++ [EvOcrPath p]) s).
Proof.
  intros H. unfold try_except, single_try. unfold bind at 1.
  rewrite (ocr_model_ocr_path_run env p c s H). unfold identity_pure.
  destruct (detect_file env p c) as [r|e]; [|reflexivity].
  unfold bind, lift, ret. destruct (process_ocr_result r); reflexivity.
Qed.

Lemma upload_and_ocr_run request f rest s :
  request_files request !! "file" = Some (f :: rest) ->
  accepted f = true ->
  let p := os_path_join UPLOAD_FOLDER (filename f) in
  let s1 := folder_ready s in
  upload_and_ocr env request s
  = match save_outcome env f p with
    | Saved =>
        (Ok (single_response (identity_pure env p (content f))),
         mkState (delete p (fs s)) (upload_folder_exists s1) (uuid_calls s)
                 (log s1 ++ [EvSave p; EvOcrPath p; EvRemove p]) (results s))
    | SaveFailed e _ =>
        (Raise e,
         mkState (fs_after_save env f p (fs s)) (upload_folder_exists s1)
                 (uuid_calls s) (log s1 ++ [EvSave p]) (results s))
    end.
Proof.
  intros Hfile Hacc p s1. unfold upload_and_ocr. rewrite Hfile.
  assert (Ht : String.eqb (filename f) "" = false).
  { unfold accepted, file_truthy in Hacc. apply andb_true_iff in Hacc as [H _].
    apply negb_true_iff in H. exact H. }
  rewrite Ht. unfold bind at 1. rewrite file_and_allowed_run, Hacc.
  unfold bind at 1. rewrite ensure_upload_folder_run. fold s1. fold p.
  unfold bind at 1. rewrite file_save_run.
  assert (Hs1 : fs s1 = fs s /\ uuid_calls s1 = uuid_calls s /\ results s1 = results s).
  { unfold s1, folder_ready. destruct (upload_folder_exists s); auto. }
  destruct Hs1 as (Hfs & Huuid & Hres). rewrite Hfs, Huuid, Hres.
  destruct (save_outcome env f p) as [|e partial] eqn:Hsave; [|reflexivity].
  unfold try_finally. erewrite single_try_run; cycle 1.
  { cbn. unfold fs_after_save. rewrite Hsave. apply lookup_insert_eq. }
  unfold p. rewrite cleanup_run. fold p. cbn.
  unfold removal, fs_after_save. rewrite Hsave, lookup_insert_eq.
  rewrite bool_decide_eq_true_2 by eauto.
  rewrite delete_insert_eq, <- !app_assoc. reflexivity.
Qed.

Lemma upload_and_ocr_rejects request f rest s :
  request_files request !! "file" = Some (f :: rest) ->
  filename f <> "" -> accepted f = false ->
  upload_and_ocr env request s
  = (Ok (ErrorBody "File type not allowed", 400%nat), s).
Proof.
  intros Hfile Hname Hacc. unfold upload_and_ocr. rewrite Hfile.
  destruct (String.eqb (filename f) "") eqn:E;
    [apply String.eqb_eq in E; contradiction|].
  unfold bind at 1. rewrite file_and_allowed_run, Hacc. reflexivity.
Qed.
End SingleRoute.

(** ** Isolation of the items of a batch loop *)

Section Isolation.
Context {Image : Type} (env : Env Image).
Variable item : File -> M unit.
Variable try_block : File -> string -> M unit.
Variable summary : string -> File -> Res Outcome * list Event.
Hypothesis item_run : forall f s, item f s = (Ok tt, item_end env summary f s).
Hypothesis try_run : forall f p s, try_block f p s = try_end env f p (summary p f) s.

Lemma failure_is_caught f s e s1 :
  accepted f = true ->
  try_block f (unique_path (uuid4 env (uuid_calls s)) f)
            (set_uuid_calls (S (uuid_calls s)) s) = (Raise e, s1) ->
  exists s', item f s = (Ok tt, s') /\
             results s' = results s ++ [error_outcome (filename f) (str e)].
Proof.
  intros Hacc Htry. rewrite try_run in Htry. unfold try_end in Htry.
  eexists. split; [apply item_run|].
  unfold item_end. rewrite Hacc. cbn [item_state results].
  destruct (fst (summary _ f)) as [o|e']; [discriminate|].
  injection Htry as -> _. reflexivity.
Qed.

Lemma rejection_is_recorded f s :
  accepted f = false ->
  item f s
  = (Ok tt, set_results
              (results s ++ [error_outcome (display_name f) "File type not allowed"]) s).
Proof. intros Hacc. rewrite item_run. unfold item_end. rewrite Hacc. reflexivity. Qed.

Lemma loop_continues before f after s :
  exists s1 s2 s3,
    for_each before item s = (Ok tt, s1) /\ item f s1 = (Ok tt, s2) /\
    for_each after item s2 = (Ok tt, s3) /\
    for_each (before ++ f :: after) item s = (Ok tt, s3).
Proof.
  exists (loop_end env summary before s).
  exists (item_end env summary f (loop_end env summary before s)).
  exists (loop_end env summary after
            (item_end env summary f (loop_end env summary before s))).
  rewrite !(for_each_run item (item_end env summary) item_run), item_run.
  repeat split. unfold loop_end. rewrite foldl_app. reflexivity.
Qed.

Lemma others_unchanged before f g after s :
  accepted f = accepted g ->
  exists r1 o_f o_g r2 s_f s_g,
    length r1 = length before /\ length r2 = length after /\
    for_each (before ++ f :: after) item s = (Ok tt, s_f) /\
    results s_f = results s ++ r1 ++ o_f :: r2 /\
    for_each (before ++ g :: after) item s = (Ok tt, s_g) /\
    results s_g = results s ++ r1 ++ o_g :: r2.
Proof.
  intros Hfg.
  set (n1 := uuid_calls s + length (List.filter accepted before)).
  exists (outcomes_from env summary (uuid_calls s) before).
  exists (item_outcome env summary f n1), (item_outcome env summary g n1).
  exists (outcomes_from env summary (if accepted f then S n1 else n1) after).
  exists (loop_end env summary (before ++ f :: after) s).
  exists (loop_end env summary (before ++ g :: after) s).
  rewrite !(for_each_run item (item_end env summary) item_run).
  rewrite !results_loop_end, !outcomes_from_app, !length_outcomes_from.
  cbn [outcomes_from]. fold n1. rewrite Hfg. repeat split.
Qed.

Lemma outcome_ignores_state f s1 s2 :
  uuid4 env (uuid_calls s1) = uuid4 env (uuid_calls s2) ->
  exists o s1' s2',
    item f s1 = (Ok tt, s1') /\ results s1' = results s1 ++ [o] /\
    item f s2 = (Ok tt, s2') /\ results s2' = results s2 ++ [o].
Proof.
  intros H. exists (item_outcome env summary f (uuid_calls s1)).
  exists (item_end env summary f s1), (item_end env summary f s2).
  rewrite !item_run, !results_item_end. unfold item_outcome. rewrite H.
  repeat split.
Qed.
End Isolation.

(** ** Storage and the order of the calls *)

Section Storage.
Context {Image : Type} (env : Env Image).

Lemma file_save_returns f p s s1 :
  file_save env f p s = (Ok tt, s1) ->
  save_outcome env f p = Saved /\
  s1 = mkState (<[p := content f]> (fs s)) (upload_folder_exists s)
               (uuid_calls s) (log s ++ [EvSave p]) (results s).
Proof.
  rewrite file_save_run. unfold fs_after_save.
  destruct (save_outcome env f p) as [|e partial]; [|discriminate].
  intros [= <-]. split; reflexivity.
Qed.

Lemma removal_after_save f p m :
  save_outcome env f p = Saved -> removal p (fs_after_save env f p m) = [EvRemove p].
Proof.
  intros H. unfold removal, fs_after_save. rewrite H, lookup_insert_eq.
  rewrite bool_decide_eq_true_2 by eauto. reflexivity.
Qed.

Lemma augmentation_events p c :
  exists evs, snd (augmentation_pure env p c) = EvImread p :: evs /\
              List.filter storage_event evs = [].
Proof.
  unfold augmentation_pure.
  destruct (cvtColor env (decode_image env p c)) as [g|e]; [|eexists; split; reflexivity].
  destruct (threshold env g) as [a|e]; eexists; split; reflexivity.
Qed.

Lemma simple_storage_events f p :
  save_outcome env f p = Saved ->
  List.filter storage_event (snd (simple_summary env p f)) = [EvSave p].
Proof. intros H. unfold simple_summary. rewrite H. reflexivity. Qed.

Lemma augmented_storage_events f p :
  save_outcome env f p = Saved ->
  List.filter storage_event (snd (augmented_summary env p f)) = [EvSave p].
Proof.
  intros H. unfold augmented_summary. rewrite H.
  destruct (identity_pure env p (content f)) as [t|e]; [|reflexivity].
  destruct (augmentation_events p (content f)) as (evs & Hevs & Hfilter).
  destruct (augmentation_pure env p (content f)) as [r evs']. cbn [snd] in *.
  subst evs'. cbn. rewrite Hfilter. reflexivity.
Qed.

(** An accepted item whose file was saved: one save, one removal, and no
    file left at its path. *)
Lemma item_releases_storage summary f s :
  accepted f = true ->
  let p := unique_path (uuid4 env (uuid_calls s)) f in
  save_outcome env f p = Saved ->
  List.filter storage_event (snd (summary p f)) = [EvSave p] ->
  exists evs,
    fs (item_end env summary f s) !! p = None /\
    log (item_end env summary f s) = log s ++ evs /\
    List.filter storage_event evs = [EvSave p; EvRemove p].
Proof.
  intros Hacc p Hsave Hevs. unfold item_end. rewrite Hacc. fold p.
  eexists. split; [apply lookup_delete_eq|]. split; [reflexivity|].
  rewrite List.filter_app, Hevs, removal_after_save by exact Hsave. reflexivity.
Qed.

Lemma fs_item_end summary f s : fs (item_end env summary f s) ⊆ fs s.
Proof.
  unfold item_end. destruct (accepted f); [apply delete_subseteq|reflexivity].
Qed.

Lemma fs_loop_end summary files : forall s, fs (loop_end env summary files s) ⊆ fs s.
Proof.
  induction files as [|f files IH]; intros s; [reflexivity|].
  cbn [loop_end foldl]. etrans; [apply IH|apply fs_item_end].
Qed.

Lemma fs_loop_start s : fs (loop_start s) = fs s.
Proof. unfold loop_start, folder_ready. cbn. destruct (upload_folder_exists s); reflexivity. Qed.

(** A batch route leaves no file behind. *)
Lemma batch_route_no_leak item summary request s r s' :
  (forall f s, item f s = (Ok tt, item_end env summary f s)) ->
  batch_route item request s = (r, s') -> fs s' ⊆ fs s.
Proof.
  intros Hitem. unfold batch_route.
  destruct (request_files request !! "files") as [files|];
    [|intros [= _ <-]; reflexivity].
  destruct (nothing_selected files); [intros [= _ <-]; reflexivity|].
  unfold bind at 1. unfold results_init.
  unfold bind at 1. rewrite ensure_upload_folder_run.
  unfold bind at 1. rewrite (for_each_run item (item_end env summary) Hitem).
  unfold bind, results_get, ret. intros [= _ <-].
  fold (loop_start s). fold (loop_end env summary files (loop_start s)).
  etrans; [apply fs_loop_end|]. rewrite fs_loop_start. reflexivity.
Qed.
End Storage.

(** ** Joining strings *)

Lemma length_append s t : String.length (s +:+ t) = String.length s + String.length t.
Proof.
  induction s as [|a s IH]; [reflexivity|].
  rewrite append_cons. cbn [String.length]. rewrite IH. reflexivity.
Qed.

(** A join has one separator between two consecutive parts, and none
    elsewhere, whether or not a part is empty. *)
Lemma length_join sep parts :
  String.length (join sep parts)
  = sum_list (map String.length parts) + (length parts - 1) * String.length sep.
Proof.
  unfold join. induction parts as [|part parts IH]; [reflexivity|].
  destruct parts as [|part' parts].
  - cbn. lia.
  - change (String.concat sep (part :: part' :: parts))
      with (part +:+ sep +:+ String.concat sep (part' :: parts)).
    rewrite !length_append, IH. cbn [map sum_list length].
    rewrite !Nat.sub_succ, !Nat.sub_0_r. unfold id. lia.
Qed.

Lemma concat_sorted_lines (lines : list (list Item)) :
  concat (map (sort_by lt_x) lines) ≡ₚ concat lines.
Proof.
  induction lines as [|line lines IH]; [reflexivity|].
  cbn [map concat]. rewrite IH, (sort_by_perm lt_x). reflexivity.
Qed.

Lemma texts_of_coordinates dets : map item_text (map text_coordinate dets) = map det_text dets.
Proof. rewrite map_map. reflexivity. Qed.

(** ** Examples *)

(** The line grouping example of the specification, fragments given out of
    order. *)
Example line_grouping_example :
  process_ocr_result
    (Some [Some [ mkDetection (mkBox (mkPoint 50 130) (mkPoint 90 130)
                                     (mkPoint 90 150) (mkPoint 50 150)) "Foo" 1;
                  mkDetection (mkBox (mkPoint 120 92) (mkPoint 160 92)
                                     (mkPoint 160 112) (mkPoint 120 112)) "World" 1;
                  mkDetection (mkBox (mkPoint 50 90) (mkPoint 90 90)
                                     (mkPoint 90 110) (mkPoint 50 110)) "Hello" 1 ]])
  = Ok ("Hello World" +:+ newline +:+ "Foo").
Proof. vm_compute. reflexivity. Qed.

(** Fragments with the same key keep their input order. *)
Example equal_keys_example :
  process_ocr_result
    (Some [Some [fragment_at 100 "c"; fragment_at 100 "b"; fragment_at 100 "a"]])
  = Ok "c b a".
Proof. vm_compute. reflexivity. Qed.

Example allowed_file_examples :
  allowed_file "a.PNG" = Ok true /\ allowed_file "a.b.jpeg" = Ok true /\
  allowed_file "a.gif" = Ok false /\ allowed_file "png" = Ok false /\
  allowed_file "a.png." = Ok false /\ allowed_file ".jpg" = Ok true.
Proof. repeat split; vm_compute; reflexivity. Qed.

Example blank_characters_example :
  len_split no_break_text = 2%nat /\ len_split em_space_text = 2%nat /\
  len_split ("caf" +:+ String (ascii_of_nat 195) (String (ascii_of_nat 169) "")) = 1%nat.
Proof. repeat split; vm_compute; reflexivity. Qed.

Example text_coordinate_example :
  text_coordinate slanted_fragment = mkItem "slanted" ((10 + 45) / 2) 7.
Proof. reflexivity. Qed.

Example len_split_example : len_split "  Hello   World " = 2%nat.
Proof. reflexivity. Qed.

(** A run of the simple batch route: one accepted item, one rejected. *)
Example batch_run_example :
  fst (upload_and_ocr_batch env_ok (batch_request [scan_png; anim_gif]) empty_state)
  = Ok (ResultsBody [success_outcome scan_png "plain";
                     mkOutcome "anim.gif" "" error (Some "File type not allowed") None None], 200%nat).
Proof. vm_compute. reflexivity. Qed.

(** In the single-file route a save that fails after creating the
    destination propagates, and the partial file stays: [file.save] is
    called before the [try] statement. *)
Example single_route_failed_save :
  let env := mkEnv unit (fun _ => "id")
               (fun _ _ => SaveFailed (LibError "disk full") (Some ""))
               (fun _ _ => Ok None) (fun _ _ => None)
               (fun _ => Ok tt) (fun _ => Ok tt) (fun _ => Ok None) in
  let run := upload_and_ocr env (single_request scan_png) empty_state in
  fst run = Raise (LibError "disk full") /\
  fs (snd run) !! "uploads/scan.png" = Some "".
Proof. vm_compute. split; reflexivity. Qed.

(** * The claims *)

(** C1. For every detector result with fragments, the clusterer sorts the
    fragments by [(anchorY, anchorX)] ascending and walks the sorted
    sequence once: the lines are consecutive runs of the sorted sequence,
    a fragment stays in the open line exactly when its [anchorY] is within
    18 of that of the fragment added last, and a new line starts
    otherwise.  [process_ocr_result] returns the formatting of these lines.
    Fragments with anchors 100, 115 and 130 form a single line. *)
Theorem C1_sort_then_chain (d : Detection) (ds : list Detection)
    (more : list (option (list Detection))) :
  let fragments := map text_coordinate (d :: ds) in
  let sorted := sort_by lt_yx fragments in
  let lines := spec_cluster fragments in
  (sorted ≡ₚ fragments /\ StronglySorted le_yx sorted) /\
  process_ocr_result (first_page (d :: ds) more) = Ok (spec_format lines) /\
  (concat lines = sorted /\ Forall (fun line => line <> []) lines /\
   Forall chained lines /\ neighbours gap_between lines) /\
  (forall d1 d2 d3 input,
     (item_y (text_coordinate d1) == 100)%Q ->
     (item_y (text_coordinate d2) == 115)%Q ->
     (item_y (text_coordinate d3) == 130)%Q ->
     input ≡ₚ [d1; d2; d3] ->
     spec_cluster (map text_coordinate input)
     = [[text_coordinate d1; text_coordinate d2; text_coordinate d3]]).
Proof.
  intros fragments sorted lines. repeat split.
  - apply (sort_by_perm lt_yx).
  - apply sort_yx_sorted.
  - apply process_ocr_result_refines.
  - apply spec_cluster_concat.
  - apply spec_cluster_nonempty.
  - apply spec_cluster_chained.
  - apply spec_cluster_gaps.
  - intros d1 d2 d3 input H1 H2 H3 Hperm.
    apply drift_single_line; try assumption.
    apply (Permutation_map text_coordinate) in Hperm. exact Hperm.
Qed.

(** C8. A detector result without fragments is reconstructed as the fixed
    sentinel "No text found.", which is not the empty string; no exception
    is raised. *)
Theorem C8_empty_result_sentinel (result : OcrResult) :
  fragments_of result = [] ->
  process_ocr_result result = Ok no_text_found /\ no_text_found <> "".
Proof.
  intros H. split; [|discriminate].
  destruct result as [[|[[|d ds]|] more]|]; try reflexivity. discriminate.
Qed.

(** C9. The formatter sorts the fragments of each line by [anchorX]
    ascending, keeping the order of fragments with equal [anchorX]; it
    joins the texts of a line with one space between two consecutive
    texts, empty or not, and joins the lines with a newline in the order
    the clusterer produced them. *)
Theorem C9_formatter (d : Detection) (ds : list Detection)
    (more : list (option (list Detection))) :
  let lines := spec_cluster (map text_coordinate (d :: ds)) in
  lines <> [] /\
  process_ocr_result (first_page (d :: ds) more)
  = Ok (join newline
          (map (fun line => join " " (map item_text (sort_by lt_x line))) lines)) /\
  (forall line,
     sort_by lt_x line ≡ₚ line /\
     StronglySorted (fun a b => (item_x a <= item_x b)%Q) (sort_by lt_x line) /\
     forall q, List.filter (fun i => Qeq_bool (item_x i) q) (sort_by lt_x line)
               = List.filter (fun i => Qeq_bool (item_x i) q) line) /\
  (forall texts,
     String.length (join " " texts)
     = sum_list (map String.length texts) + (length texts - 1)) /\
  join " " ["a"; ""; "b"] = "a  b".
Proof.
  intros lines. repeat split.
  - intros E. pose proof (spec_cluster_concat (map text_coordinate (d :: ds))) as H.
    fold lines in H. rewrite E in H. cbn [concat] in H.
    pose proof (sort_by_perm lt_yx (map text_coordinate (d :: ds))) as P.
    rewrite <- H in P. apply Permutation_nil in P. discriminate.
  - apply process_ocr_result_refines.
  - apply (sort_by_perm lt_x).
  - apply sort_x_sorted.
  - intros q.
    pose proof (sort_by_stable lt_x lt_x_irrefl lt_x_trans lt_x_cotrans
                  (mkItem "" 0 q) line) as H.
    erewrite !(List.filter_ext (tied lt_x (mkItem "" 0 q))) in H
      by (intros a; apply tied_x).
    exact H.
  - intros texts. rewrite length_join. cbn [String.length]. lia.
Qed.

(** C10. For every detector result with fragments, each fragment is placed
    in exactly one line: the output is the newline join of lines, each the
    space join of the texts of its fragments, and the texts of all lines
    together are a permutation of the texts of the input fragments. *)
Theorem C10_texts_are_partitioned (d : Detection) (ds : list Detection)
    (more : list (option (list Detection))) :
  concat (spec_cluster (map text_coordinate (d :: ds)))
    ≡ₚ map text_coordinate (d :: ds) /\
  exists pieces : list (list string),
    process_ocr_result (first_page (d :: ds) more)
    = Ok (join newline (map (join " ") pieces)) /\
    Forall (fun piece => piece <> []) pieces /\
    concat pieces ≡ₚ map det_text (d :: ds).
Proof.
  set (fragments := map text_coordinate (d :: ds)).
  assert (Hperm : concat (spec_cluster fragments) ≡ₚ fragments).
  { rewrite spec_cluster_concat. apply (sort_by_perm lt_yx). }
  split; [exact Hperm|].
  exists (map (fun line => map item_text (sort_by lt_x line)) (spec_cluster fragments)).
  repeat split.
  - rewrite process_ocr_result_refines. unfold spec_format. rewrite map_map. reflexivity.
  - apply Forall_map. eapply Forall_impl; [apply spec_cluster_nonempty|].
    intros line Hne E. apply map_eq_nil in E.
    pose proof (sort_by_perm lt_x line) as P. rewrite E in P.
    apply Permutation_nil in P. contradiction.
  - rewrite <- (map_map (sort_by lt_x) (map item_text)), <- concat_map.
    rewrite concat_sorted_lines, Hperm. unfold fragments.
    rewrite texts_of_coordinates. reflexivity.
Qed.

(** C2. A batch request with at least one named item is answered with a
    result list that has exactly one outcome per input item, in the order
    of the input: the outcome at each position is the one the loop body
    gives to the item at that position, and it carries that item's name.
    This holds for every behaviour of the collaborators, in both batch
    routes. *)
Theorem C2_one_outcome_per_item {Image} (env : Env Image)
    (request : Request) (files : list File) (s : State) :
  request_files request !! "files" = Some files ->
  (exists f, f ∈ files /\ filename f <> "") ->
  (exists outs s',
     upload_and_ocr_batch env request s
     = (Ok (ResultsBody outs, 200%nat), s') /\
     length outs = length files /\
     Forall2 (fun f o => outcome_of_item (batch_item env) f o /\
                         o_filename o = display_name f) files outs) /\
  (exists outs s',
     upload_and_ocr_batch_augmented env request s
     = (Ok (ResultsBody outs, 200%nat), s') /\
     length outs = length files /\
     Forall2 (fun f o => outcome_of_item (augmented_item env) f o /\
                         o_filename o = display_name f) files outs).
Proof.
  intros Hfiles Hsel. apply nothing_selected_false in Hsel.
  assert (Hstart : forall summary,
            results (loop_end env summary files (loop_start s))
            = outcomes_from env summary (uuid_calls s) files).
  { intros summary. rewrite results_loop_end. unfold loop_start, folder_ready.
    cbn. destruct (upload_folder_exists s); reflexivity. }
  split.
  - exists (outcomes_from env (simple_summary env) (uuid_calls s) files).
    eexists. repeat split.
    + unfold upload_and_ocr_batch.
      rewrite (batch_route_run env _ (simple_summary env) request files);
        try assumption; [|apply batch_item_run].
      rewrite Hstart. reflexivity.
    + apply length_outcomes_from.
    + apply outcomes_from_Forall2;
        [apply simple_summary_names|apply batch_item_run].
  - exists (outcomes_from env (augmented_summary env) (uuid_calls s) files).
    eexists. repeat split.
    + unfold upload_and_ocr_batch_augmented.
      rewrite (batch_route_run env _ (augmented_summary env) request files);
        try assumption; [|apply augmented_item_run].
      rewrite Hstart. reflexivity.
    + apply length_outcomes_from.
    + apply outcomes_from_Forall2;
        [apply augmented_summary_names|apply augmented_item_run].
Qed.

(** C3. In both batch routes ([batch_route item] is the route whose loop
    body is [item]): the route never raises; an exception raised by the
    guarded block of an item is caught and recorded as that item's
    outcome, which carries the item's name, the status [error] and, as its
    message, the text of the exception; an unsupported file type is
    recorded in the same way with the message "File type not allowed",
    and nothing else in the state changes; the loop goes on with
    the items that follow; the outcomes of the other items do not change
    when an item is replaced by another one with the same validation
    result (so that the same random identifiers are drawn); and an item's
    outcome depends on the state earlier items left only through the
    random identifier it draws. *)
Theorem C3_failures_are_isolated {Image} (env : Env Image) :
  forall item try_block,
    (item, try_block) = (batch_item env, batch_try env) \/
    (item, try_block) = (augmented_item env, augmented_try env) ->
    (forall request s, exists response s',
       batch_route item request s = (Ok response, s')) /\
    (forall f s e s1,
       accepted f = true ->
       try_block f (unique_path (uuid4 env (uuid_calls s)) f)
                 (set_uuid_calls (S (uuid_calls s)) s) = (Raise e, s1) ->
       exists s' o,
         item f s = (Ok tt, s') /\ results s' = results s ++ [o] /\
         error_entry (filename f) (str e) o) /\
    (forall f s,
       accepted f = false ->
       exists o,
         item f s = (Ok tt, set_results (results s ++ [o]) s) /\
         error_entry (display_name f) "File type not allowed" o) /\
    (forall before f after s, exists s1 s2 s3,
       for_each before item s = (Ok tt, s1) /\ item f s1 = (Ok tt, s2) /\
       for_each after item s2 = (Ok tt, s3) /\
       for_each (before ++ f :: after) item s = (Ok tt, s3)) /\
    (forall before f g after s,
       accepted f = accepted g ->
       exists r1 o_f o_g r2 s_f s_g,
         length r1 = length before /\ length r2 = length after /\
         for_each (before ++ f :: after) item s = (Ok tt, s_f) /\
         results s_f = results s ++ r1 ++ o_f :: r2 /\
         for_each (before ++ g :: after) item s = (Ok tt, s_g) /\
         results s_g = results s ++ r1 ++ o_g :: r2) /\
    (forall f s1 s2,
       uuid4 env (uuid_calls s1) = uuid4 env (uuid_calls s2) ->
       exists o s1' s2',
         item f s1 = (Ok tt, s1') /\ results s1' = results s1 ++ [o] /\
         item f s2 = (Ok tt, s2') /\ results s2' = results s2 ++ [o]).
Proof.
  intros item try_block [[= -> ->]|[= -> ->]].
  - pose proof (batch_item_run env) as Hitem.
    pose proof (batch_try_run env) as Htry.
    split; [intros; eapply batch_route_total; exact Hitem|].
    split; [intros f s e s1 Hacc Hraise|].
    { destruct (failure_is_caught env _ _ _ Hitem Htry f s e s1 Hacc Hraise)
        as (s' & Hrun & Hres).
      exists s'. eexists. split; [exact Hrun|]. split; [exact Hres|].
      repeat split. }
    split; [intros f s Hacc|].
    { eexists. split; [eapply rejection_is_recorded; eauto|]. repeat split. }
    split; [intros; eapply loop_continues; eauto|].
    split; [intros; eapply others_unchanged; eauto|].
    intros; eapply outcome_ignores_state; eauto.
  - pose proof (augmented_item_run env) as Hitem.
    pose proof (augmented_try_run env) as Htry.
    split; [intros; eapply batch_route_total; exact Hitem|].
    split; [intros f s e s1 Hacc Hraise|].
    { destruct (failure_is_caught env _ _ _ Hitem Htry f s e s1 Hacc Hraise)
        as (s' & Hrun & Hres).
      exists s'. eexists. split; [exact Hrun|]. split; [exact Hres|].
      repeat split. }
    split; [intros f s Hacc|].
    { eexists. split; [eapply rejection_is_recorded; eauto|]. repeat split. }
    split; [intros; eapply loop_continues; eauto|].
    split; [intros; eapply others_unchanged; eauto|].
    intros; eapply outcome_ignores_state; eauto.
Qed.


(** C5, as the code has it.  In augmented mode the two variants run one
    after the other inside one guarded block: when the identity variant
    raises, no augmentation step is attempted, and when an augmentation
    step raises, the identity text is not reported; either way the item's
    outcome is the error outcome with the message of the exception. *)
Theorem C5_variants_run_in_sequence {Image} (env : Env Image)
    (f : File) (s : State) :
  accepted f = true ->
  let p := unique_path (uuid4 env (uuid_calls s)) f in
  forall s1,
    file_save env f p (set_uuid_calls (S (uuid_calls s)) s) = (Ok tt, s1) ->
    (forall e s2,
       identity_steps env p s1 = (Raise e, s2) ->
       exists s' o,
         augmented_item env f s = (Ok tt, s') /\
         log s' = log s ++ [EvSave p; EvOcrPath p; EvRemove p] /\
         results s' = results s ++ [o] /\
         error_entry (filename f) (str e) o) /\
    (forall original_text s2 e s3,
       identity_steps env p s1 = (Ok original_text, s2) ->
       augmentation_steps env p s2 = (Raise e, s3) ->
       exists s' o,
         augmented_item env f s = (Ok tt, s') /\
         results s' = results s ++ [o] /\
         error_entry (filename f) (str e) o /\
         o_original_text o = None).
Proof.
  intros Hacc p s1 Hsave.
  apply file_save_returns in Hsave as [Hsaved ->]. split.
  - intros e s2 Hid.
    erewrite identity_steps_run in Hid by apply lookup_insert_eq.
    injection Hid as Hid _.
    exists (item_end env (augmented_summary env) f s).
    exists (error_outcome (filename f) (str e)).
    split; [apply augmented_item_run|].
    unfold item_end. rewrite Hacc. fold p. cbn [item_state log results].
    rewrite removal_after_save by exact Hsaved.
    unfold augmented_summary. rewrite Hsaved, Hid. repeat split.
  - intros original_text s2 e s3 Hid Haug.
    erewrite identity_steps_run in Hid by apply lookup_insert_eq.
    injection Hid as Hid <-.
    erewrite augmentation_steps_run in Haug by apply lookup_insert_eq.
    injection Haug as Haug _.
    exists (item_end env (augmented_summary env) f s).
    exists (error_outcome (filename f) (str e)).
    split; [apply augmented_item_run|].
    unfold item_end. rewrite Hacc. fold p. cbn [item_state log results].
    unfold augmented_summary. rewrite Hsaved, Hid.
    destruct (augmentation_pure env p (content f)) as [[t|e'] evs];
      cbn [fst] in Haug; [discriminate|].
    injection Haug as ->. repeat split.
Qed.

(** C5 as stated fails: with a detector that fails on the stored file, the
    enhanced variant on its own would yield "sharp", but the item ends as
    an error outcome without text, and the detector is never run on the
    processed image. *)
Lemma C5_identity_failure_stops_augmentation :
  accepted scan_png = true /\
  detect_file env_identity_fails "uploads/id_scan.png" (content scan_png)
  = Raise (LibError "detector failed") /\
  fst (augmentation_pure env_identity_fails "uploads/id_scan.png" (content scan_png))
  = Ok "sharp" /\
  (exists s',
     augmented_item env_identity_fails scan_png empty_state = (Ok tt, s') /\
     results s' = [mkOutcome "scan.png" "" error (Some "detector failed") None None] /\
     log s' = [EvSave "uploads/id_scan.png"; EvOcrPath "uploads/id_scan.png";
               EvRemove "uploads/id_scan.png"]) /\
  ~ transforms_run_independently.
Proof.
  assert (Hacc : accepted scan_png = true) by (vm_compute; reflexivity).
  assert (Hres : results (item_end env_identity_fails
                            (augmented_summary env_identity_fails) scan_png empty_state)
                 = [mkOutcome "scan.png" "" error (Some "detector failed") None None])
    by (vm_compute; reflexivity).
  split; [exact Hacc|]. split; [reflexivity|]. split; [vm_compute; reflexivity|].
  split.
  - eexists. split; [apply augmented_item_run|]. split; [exact Hres|].
    vm_compute. reflexivity.
  - intros H.
    destruct (H unit env_identity_fails scan_png empty_state _ _ Hacc eq_refl
                (augmented_item_run env_identity_fails scan_png empty_state) Hres)
      as [Htext _].
    specialize (Htext "sharp" ltac:(vm_compute; reflexivity)). discriminate.
Qed.

(** C6. The single-file route does not release its temporary storage on
    every exit path.  It calls [file.save] before the [try] statement:
    when the call raises after it created the destination, the exception
    leaves the route, the [finally] block is not reached, [os.remove] is
    not called and the file stays.  In a batch loop [file.save] is called
    inside the [try] statement, and the same failure ends with the path
    released. *)
Theorem C6_single_route_keeps_file_after_failed_save :
  accepted scan_png = true /\
  save_outcome env_disk_full scan_png "uploads/scan.png"
  = SaveFailed (LibError "disk full") (Some "") /\
  (exists s',
     upload_and_ocr env_disk_full (single_request scan_png) empty_state
     = (Raise (LibError "disk full"), s') /\
     fs empty_state !! "uploads/scan.png" = None /\
     fs s' !! "uploads/scan.png" = Some "" /\
     List.filter storage_event (log s') = [EvSave "uploads/scan.png"]) /\
  (exists s',
     batch_item env_disk_full scan_png empty_state = (Ok tt, s') /\
     fs s' !! "uploads/id_scan.png" = None /\
     List.filter storage_event (log s')
     = [EvSave "uploads/id_scan.png"; EvRemove "uploads/id_scan.png"]).
Proof.
  assert (Hacc : accepted scan_png = true) by (vm_compute; reflexivity).
  split; [exact Hacc|]. split; [reflexivity|]. split.
  - pose proof (upload_and_ocr_run env_disk_full (single_request scan_png)
                  scan_png [] empty_state eq_refl Hacc) as Hrun.
    eexists. split; [exact Hrun|]. repeat split; vm_compute; reflexivity.
  - eexists. split; [apply batch_item_run|]. split; vm_compute; reflexivity.
Qed.

(** C7. [allowed_file] accepts a name exactly when it has a dot and the
    text after its last dot is png, jpg or jpeg in any letter case.  The
    routes process exactly the accepted files: an accepted file is saved,
    and any other file gets an outcome with the status [error] and the
    message "File type not allowed", without a single external call and
    without any other change of the state.  A batch with a [.gif] item
    has one outcome per item, that error outcome at the place of the
    [.gif] item, and the other outcomes are those of the batch without
    it. *)
Theorem C7_extension_allow_list {Image} (env : Env Image) :
  (forall name, exists b,
     allowed_file name = Ok b /\ (b = true <-> has_allowed_extension name)) /\
  (forall item,
     item = batch_item env \/ item = augmented_item env ->
     forall f s,
       (has_allowed_extension (filename f) ->
        exists s' evs,
          item f s = (Ok tt, s') /\
          log s' = log s ++ EvSave (unique_path (uuid4 env (uuid_calls s)) f) :: evs) /\
       (~ has_allowed_extension (filename f) ->
        exists o,
          item f s = (Ok tt, set_results (results s ++ [o]) s) /\
          error_entry (display_name f) "File type not allowed" o)) /\
  (forall request f rest s,
     request_files request !! "file" = Some (f :: rest) ->
     filename f <> "" ->
     (has_allowed_extension (filename f) ->
      exists r s' evs,
        upload_and_ocr env request s = (r, s') /\
        log s' = log (folder_ready s)
                 ++ EvSave (os_path_join UPLOAD_FOLDER (filename f)) :: evs) /\
     (~ has_allowed_extension (filename f) ->
      upload_and_ocr env request s
      = (Ok (ErrorBody "File type not allowed", 400%nat), s))) /\
  (forall request before g after stem s,
     request_files request !! "files" = Some (before ++ g :: after) ->
     filename g = stem +:+ ".gif" ->
     exists r1 o r2 s',
       length r1 = length before /\ length r2 = length after /\
       error_entry (filename g) "File type not allowed" o /\
       upload_and_ocr_batch env request s
       = (Ok (ResultsBody (r1 ++ o :: r2), 200%nat), s') /\
       (forall request',
          request_files request' !! "files" = Some (before ++ after) ->
          nothing_selected (before ++ after) = false ->
          exists s'',
            upload_and_ocr_batch env request' s
            = (Ok (ResultsBody (r1 ++ r2), 200%nat), s''))).
Proof.
  split; [exact allowed_file_spec|]. split; [|split].
  - assert (Hgen : forall item summary,
              (forall f s, item f s = (Ok tt, item_end env summary f s)) ->
              (forall p f, exists evs, snd (summary p f) = EvSave p :: evs) ->
              forall f s,
                (has_allowed_extension (filename f) ->
                 exists s' evs,
                   item f s = (Ok tt, s') /\
                   log s' = log s
                            ++ EvSave (unique_path (uuid4 env (uuid_calls s)) f) :: evs) /\
                (~ has_allowed_extension (filename f) ->
                 exists o,
                   item f s = (Ok tt, set_results (results s ++ [o]) s) /\
                   error_entry (display_name f) "File type not allowed" o)).
    { intros item summary Hitem Hfirst f s. split.
      - intros Hext. apply accepted_spec in Hext.
        destruct (Hfirst (unique_path (uuid4 env (uuid_calls s)) f) f) as [evs Hevs].
        eexists. eexists. split; [apply Hitem|].
        unfold item_end. rewrite Hext. cbn [item_state log]. rewrite Hevs.
        reflexivity.
      - intros Hext. apply accepted_false in Hext.
        exists (not_allowed_outcome f). split; [|repeat split].
        rewrite Hitem. unfold item_end. rewrite Hext. reflexivity. }
    intros item [->| ->].
    + apply (Hgen _ (simple_summary env)); [apply batch_item_run|].
      intros p f. unfold simple_summary.
      destruct (save_outcome env f p); eexists; reflexivity.
    + apply (Hgen _ (augmented_summary env)); [apply augmented_item_run|].
      intros p f. unfold augmented_summary.
      destruct (save_outcome env f p); [|eexists; reflexivity].
      destruct (identity_pure env p (content f)); [|eexists; reflexivity].
      destruct (augmentation_pure env p (content f)). eexists; reflexivity.
  - intros request f rest s Hfile Hname. split.
    + intros Hext. apply accepted_spec in Hext.
      pose proof (upload_and_ocr_run env request f rest s Hfile Hext) as Hrun.
      cbv zeta in Hrun.
      destruct (save_outcome env f (os_path_join UPLOAD_FOLDER (filename f)));
        do 3 eexists; (split; [exact Hrun|reflexivity]).
    + intros Hext. apply accepted_false in Hext.
      eapply upload_and_ocr_rejects; eassumption.
  - intros request before g after stem s Hfiles Hg.
    assert (Hacc : accepted g = false).
    { apply accepted_false. rewrite Hg. apply gif_not_allowed. }
    assert (Hname : filename g <> "").
    { rewrite Hg. destruct stem; discriminate. }
    assert (Hdisplay : display_name g = filename g).
    { unfold display_name, file_truthy.
      destruct (String.eqb (filename g) "") eqn:E; [|reflexivity].
      apply String.eqb_eq in E. contradiction. }
    set (n := uuid_calls s).
    set (n1 := n + length (List.filter accepted before)).
    exists (outcomes_from env (simple_summary env) n before).
    exists (not_allowed_outcome g).
    exists (outcomes_from env (simple_summary env) n1 after).
    assert (Hstart : forall files,
              results (loop_end env (simple_summary env) files (loop_start s))
              = outcomes_from env (simple_summary env) n files).
    { intros files. rewrite results_loop_end. unfold loop_start, folder_ready.
      cbn. destruct (upload_folder_exists s); reflexivity. }
    eexists. split; [apply length_outcomes_from|].
    split; [apply length_outcomes_from|].
    split; [rewrite <- Hdisplay; repeat split|]. split.
    + unfold upload_and_ocr_batch.
      rewrite (batch_route_run env _ (simple_summary env) request
                 (before ++ g :: after));
        [|apply batch_item_run|exact Hfiles|].
      * rewrite Hstart, outcomes_from_app. cbn [outcomes_from]. fold n1.
        rewrite Hacc. unfold item_outcome. rewrite Hacc. reflexivity.
      * apply nothing_selected_false. exists g. split; [|exact Hname].
        apply list_elem_of_In, in_elt.
    + intros request' Hfiles' Hsel. eexists. unfold upload_and_ocr_batch.
      rewrite (batch_route_run env _ (simple_summary env) request' (before ++ after));
        [|apply batch_item_run|exact Hfiles'|exact Hsel].
      rewrite Hstart, outcomes_from_app. fold n1. reflexivity.
Qed.

(** * Instances

    Each theorem with a hypothesis, applied to a sample input. *)

Lemma C1_drift_instance :
  spec_cluster (map text_coordinate
                  [fragment_at 130 "c"; fragment_at 100 "a"; fragment_at 115 "b"])
  = [[text_coordinate (fragment_at 100 "a"); text_coordinate (fragment_at 115 "b");
      text_coordinate (fragment_at 130 "c")]].
Proof.
  destruct (C1_sort_then_chain (fragment_at 100 "a") [] []) as (_ & _ & _ & Hdrift).
  apply Hdrift; try (vm_compute; reflexivity).
  apply (Permutation_cons_append [fragment_at 100 "a"; fragment_at 115 "b"]).
Defined.

Lemma C2_two_items_instance :
  exists outs s',
    upload_and_ocr_batch env_identity_fails (batch_request [scan_png; anim_gif])
                         empty_state
    = (Ok (ResultsBody outs, 200%nat), s') /\
    length outs = 2%nat /\
    map o_filename outs = ["scan.png"; "anim.gif"].
Proof.
  destruct (C2_one_outcome_per_item env_identity_fails
              (batch_request [scan_png; anim_gif]) [scan_png; anim_gif] empty_state)
    as [(outs & s' & Hrun & Hlen & Hall) _].
  { reflexivity. }
  { exists scan_png. split; [apply list_elem_of_here|discriminate]. }
  exists outs, s'. split; [exact Hrun|]. split; [exact Hlen|].
  destruct outs as [|o1 [|o2 [|o3 outs]]]; try discriminate.
  apply Forall2_cons in Hall as [[_ H1] Hall].
  apply Forall2_cons in Hall as [[_ H2] _].
  cbn [map]. rewrite H1, H2. reflexivity.
Defined.

Lemma C3_caught_instance :
  exists s' o,
    batch_item env_identity_fails scan_png empty_state = (Ok tt, s') /\
    results s' = [o] /\
    o_filename o = "scan.png" /\ o_status o = error /\
    o_error o = Some "detector failed" /\ o_text o = "".
Proof.
  destruct (C3_failures_are_isolated env_identity_fails
              (batch_item env_identity_fails) (batch_try env_identity_fails)
              (or_introl eq_refl)) as (_ & Hcaught & _).
  pose (s1 := snd (batch_try env_identity_fails scan_png "uploads/id_scan.png"
                     (set_uuid_calls 1 empty_state))).
  destruct (Hcaught scan_png empty_state (LibError "detector failed") s1)
    as (s' & o & Hrun & Hres & Hname & Hstatus & Herror & Htext & _);
    [vm_compute; reflexivity|vm_compute; reflexivity|].
  exists s', o.
  exact (conj Hrun (conj Hres (conj Hname (conj Hstatus (conj Herror Htext))))).
Defined.


Lemma C5_sequence_instance :
  exists s' o,
    augmented_item env_identity_fails scan_png empty_state = (Ok tt, s') /\
    log s' = [EvSave "uploads/id_scan.png"; EvOcrPath "uploads/id_scan.png";
              EvRemove "uploads/id_scan.png"] /\
    results s' = [o] /\
    error_entry "scan.png" "detector failed" o.
Proof.
  pose (p := "uploads/id_scan.png").
  pose (s1 := snd (file_save env_identity_fails scan_png p
                     (set_uuid_calls 1 empty_state))).
  pose (s2 := snd (identity_steps env_identity_fails p s1)).
  destruct (C5_variants_run_in_sequence env_identity_fails scan_png empty_state
              ltac:(vm_compute; reflexivity) s1 ltac:(vm_compute; reflexivity))
    as [Hid _].
  apply (Hid (LibError "detector failed") s2). vm_compute. reflexivity.
Defined.

Lemma C7_gif_batch_instance :
  allowed_file "photo.JPG" = Ok true /\ allowed_file "anim.gif" = Ok false /\
  exists s' s'',
    upload_and_ocr_batch env_ok (batch_request [scan_png; anim_gif; photo_jpg])
                         empty_state
    = (Ok (ResultsBody
             [mkOutcome "scan.png" "plain" success None None None;
              mkOutcome "anim.gif" "" error (Some "File type not allowed") None None;
              mkOutcome "photo.JPG" "plain" success None None None],
           200%nat), s') /\
    upload_and_ocr_batch env_ok (batch_request [scan_png; photo_jpg]) empty_state
    = (Ok (ResultsBody
             [mkOutcome "scan.png" "plain" success None None None;
              mkOutcome "photo.JPG" "plain" success None None None],
           200%nat), s'').
Proof.
  destruct (C7_extension_allow_list env_ok) as (Hspec & _ & _ & Hgif).
  split; [|split].
  - destruct (Hspec "photo.JPG") as (b & Hb & Hiff). rewrite Hb. f_equal.
    apply Hiff. exists "JPG". split.
    + split; [exists "photo"; reflexivity|].
      apply (contains_false_iff "." "JPG"). reflexivity.
    + right. left. cbn [same_ignoring_case].
      repeat split; right; left;
        (split; [split; apply Nat.leb_le; reflexivity|reflexivity]).
  - destruct (Hspec "anim.gif") as (b & Hb & Hiff). rewrite Hb. f_equal.
    vm_compute in Hb. injection Hb as <-. reflexivity.
  - destruct (Hgif (batch_request [scan_png; anim_gif; photo_jpg])
                [scan_png] anim_gif [photo_jpg] "anim" empty_state eq_refl eq_refl)
      as (r1 & o & r2 & s' & H1 & H2 & Ho & Hrun & Hrest).
    destruct (Hrest (batch_request [scan_png; photo_jpg]) eq_refl eq_refl)
      as (s'' & Hrun').
    destruct r1 as [|o1 [|? ?]]; try discriminate.
    destruct r2 as [|o3 [|? ?]]; try discriminate.
    destruct o as [name text status message original variants].
    destruct Ho as (Hname & Hstatus & Hmessage & Htext & Horiginal & Hvariants).
    cbn in Hname, Hstatus, Hmessage, Htext, Horiginal, Hvariants. subst.
    exists s', s''. rewrite Hrun, Hrun'.
    assert (E : upload_and_ocr_batch env_ok (batch_request [scan_png; photo_jpg])
                  empty_state
                = (Ok (ResultsBody
                         [mkOutcome "scan.png" "plain" success None None None;
                          mkOutcome "photo.JPG" "plain" success None None None],
                       200%nat),
                   snd (upload_and_ocr_batch env_ok
                          (batch_request [scan_png; photo_jpg]) empty_state)))
      by (vm_compute; reflexivity).
    rewrite Hrun' in E. cbn [app] in E. injection E as -> ->.
    split; reflexivity.
Defined.

Lemma C8_empty_page_instance :
  process_ocr_result (Some [Some []]) = Ok no_text_found /\ no_text_found <> "".
Proof. apply (C8_empty_result_sentinel (Some [Some []])). reflexivity. Defined.

(** * Further properties of the reconstruction *)

Lemma process_ocr_result_total result : exists text, process_ocr_result result = Ok text.
Proof.
  destruct result as [[|[[|d ds]|] more]|]; try (eexists; reflexivity).
  exists (spec_format (spec_cluster (map text_coordinate (d :: ds)))).
  apply (process_ocr_result_refines d ds more).
Qed.



(** X1. [process_ocr_result] never raises: the index [current_line[-1]]
    is always in range, for every shape of the detector result, also one
    with several pages or with [None] entries. *)
Theorem X1_reconstruction_never_raises (result : OcrResult) :
  exists text, process_ocr_result result = Ok text /\
               forall e, process_ocr_result result <> Raise e.
Proof.
  destruct (process_ocr_result_total result) as [text H].
  exists text. split; [exact H|]. intros e. rewrite H. discriminate.
Qed.


Lemma neighbours_app_boundary {A} (R : A -> A -> Prop) l1 l2 a b :
  neighbours R (l1 ++ l2) -> last l1 = Some a -> head l2 = Some b -> R a b.
Proof.
  revert a. induction l1 as [|x l1 IH]; intros a Hn Hlast Hhead; [discriminate|].
  destruct l1 as [|y l1].
  - injection Hlast as <-. destruct l2 as [|b' l2]; [discriminate|].
    injection Hhead as <-. exact (proj1 Hn).
  - apply IH; [exact (proj2 Hn)|exact Hlast|exact Hhead].
Qed.

Lemma last_concat {A} (ls : list (list A)) l a :
  last ls = Some l -> last l = Some a -> last (concat ls) = Some a.
Proof.
  intros Hls Hl. apply last_Some in Hls as [ls' ->]. apply last_Some in Hl as [l' ->].
  rewrite concat_app. cbn [concat]. rewrite app_nil_r, app_assoc. apply last_snoc.
Qed.

Lemma le_yx_y a b : le_yx a b -> (item_y a <= item_y b)%Q.
Proof. unfold le_yx. lra. Qed.

Lemma not_close_sorted a b :
  (item_y a <= item_y b)%Q -> close a b = false -> (item_y a + 18 < item_y b)%Q.
Proof.
  unfold close, line_threshold. intros Hle Hc.
  apply Qnot_le_lt. intros H.
  assert (Hd : (Qabs (item_y b - item_y a) <= 18)%Q).
  { rewrite Qabs_pos; lra. }
  apply Qle_bool_iff in Hd. congruence.
Qed.

(** Fragments of lines on either side of a cut are more than the threshold
    apart. *)
Lemma lines_separated (pre post : list (list Item)) :
  StronglySorted le_yx (concat (pre ++ post)) ->
  Forall (fun line => line <> []) (pre ++ post) ->
  neighbours gap_between (pre ++ post) ->
  pre <> [] -> post <> [] ->
  forall a b, a ∈ concat pre -> b ∈ concat post -> (item_y a + 18 < item_y b)%Q.
Proof.
  intros Hsorted Hne Hgaps Hpre Hpost a b Ha Hb.
  apply Forall_app in Hne as [Hne1 Hne2].
  destruct (last pre) as [lp|] eqn:Hlp; [|apply last_None in Hlp; contradiction].
  destruct post as [|hp post']; [contradiction|]. clear Hpost.
  pose proof (neighbours_app_boundary _ _ _ lp hp Hgaps Hlp eq_refl) as Hgap.
  assert (Hlp_ne : lp <> []).
  { apply last_Some in Hlp as [pre' ->]. apply Forall_app in Hne1 as [_ H].
    apply Forall_inv in H. exact H. }
  destruct (last lp) as [la|] eqn:Hla; [|apply last_None in Hla; contradiction].
  destruct hp as [|fb hp']; [apply Forall_inv in Hne2; contradiction|].
  specialize (Hgap la fb Hla eq_refl).
  rewrite concat_app in Hsorted.
  pose proof (last_concat pre lp la Hlp Hla) as Hlast.
  apply last_Some in Hlast as [front Hfront].
  assert (Ha_la : (item_y a <= item_y la)%Q).
  { rewrite Hfront in Ha, Hsorted. apply elem_of_app in Ha as [Ha|Ha].
    - apply le_yx_y. apply StronglySorted_app_1_l in Hsorted.
      eapply StronglySorted_app_1_elem_of; [exact Hsorted|exact Ha|].
      apply list_elem_of_singleton. reflexivity.
    - apply list_elem_of_singleton in Ha as ->. lra. }
  assert (Hla_fb : (item_y la <= item_y fb)%Q).
  { apply le_yx_y. eapply StronglySorted_app_1_elem_of; [exact Hsorted| |].
    - rewrite Hfront. apply elem_of_app. right. apply list_elem_of_singleton. reflexivity.
    - cbn [concat]. left. }
  assert (Hfb_b : (item_y fb <= item_y b)%Q).
  { apply StronglySorted_app_1_r in Hsorted. cbn [concat] in Hsorted, Hb.
    change ((fb :: hp') ++ concat post') with (fb :: (hp' ++ concat post')) in *.
    apply elem_of_cons in Hb as [->|Hb]; [lra|].
    apply StronglySorted_inv in Hsorted as [_ Hall].
    rewrite Forall_forall in Hall. apply le_yx_y, Hall, Hb. }
  pose proof (not_close_sorted la fb Hla_fb Hgap). lra.
Qed.

(** X3. The lines of the text go from top to bottom, and fragments of two
    different lines are vertically more than the threshold apart: a
    fragment of a later line lies more than 18 below every fragment of an
    earlier line. *)
Theorem X3_lines_top_to_bottom (d : Detection) (ds : list Detection)
    (more : list (option (list Detection))) :
  let lines := spec_cluster (map text_coordinate (d :: ds)) in
  process_ocr_result (first_page (d :: ds) more) = Ok (spec_format lines) /\
  forall i j line_i line_j a b,
    i < j -> lines !! i = Some line_i -> lines !! j = Some line_j ->
    a ∈ line_i -> b ∈ line_j -> (item_y a + 18 < item_y b)%Q.
Proof.
  intros lines. split; [apply process_ocr_result_refines|].
  intros i j line_i line_j a b Hij Hi Hj Ha Hb.
  assert (Hsplit : take j lines ++ drop j lines = lines) by apply take_drop.
  assert (Hin_i : line_i ∈ take j lines).
  { apply list_elem_of_lookup. exists i. rewrite lookup_take_lt by exact Hij. exact Hi. }
  assert (Hin_j : line_j ∈ drop j lines).
  { apply list_elem_of_lookup. exists 0. rewrite lookup_drop, Nat.add_0_r. exact Hj. }
  apply (lines_separated (take j lines) (drop j lines)).
  - rewrite Hsplit. unfold lines. rewrite spec_cluster_concat. apply sort_yx_sorted.
  - rewrite Hsplit. apply spec_cluster_nonempty.
  - rewrite Hsplit. apply spec_cluster_gaps.
  - intros E. rewrite E in Hin_i. inversion Hin_i.
  - intros E. rewrite E in Hin_j. inversion Hin_j.
  - apply list_elem_of_In, in_concat. exists line_i.
    split; apply list_elem_of_In; assumption.
  - apply list_elem_of_In, in_concat. exists line_j.
    split; apply list_elem_of_In; assumption.
Qed.

(** Two sorted arrangements of the same elements are equal when elements
    with equal keys are equal. *)
Lemma sorted_permutation_unique {A} (lt : A -> A -> bool) :
  (forall a, lt a a = false) ->
  forall l1 l2,
    StronglySorted (not_after lt) l1 -> StronglySorted (not_after lt) l2 ->
    l1 ≡ₚ l2 ->
    (forall a b, a ∈ l1 -> b ∈ l1 -> tied lt a b = true -> a = b) ->
    l1 = l2.
Proof.
  intros Hirr. induction l1 as [|a t1 IH]; intros l2 H1 H2 Hperm Hties.
  - apply Permutation_nil in Hperm. congruence.
  - destruct l2 as [|b t2]; [symmetry in Hperm; apply Permutation_nil in Hperm; discriminate|].
    apply StronglySorted_inv in H1 as [H1 Ha]. apply StronglySorted_inv in H2 as [H2 Hb].
    rewrite Forall_forall in Ha, Hb.
    assert (Hb_in : b ∈ a :: t1) by (rewrite Hperm; left).
    assert (Ha_in : a ∈ b :: t2) by (rewrite <- Hperm; left).
    assert (Hab : not_after lt a b).
    { apply elem_of_cons in Hb_in as [->|Hin]; [apply Hirr|apply Ha, Hin]. }
    assert (Hba : not_after lt b a).
    { apply elem_of_cons in Ha_in as [->|Hin]; [apply Hirr|apply Hb, Hin]. }
    assert (a = b) as <-.
    { apply Hties; [left|exact Hb_in|]. unfold tied, not_after in *.
      rewrite Hab, Hba. reflexivity. }
    f_equal. apply IH; [exact H1|exact H2|exact (Permutation_cons_inv Hperm)|].
    intros x y Hx Hy. apply Hties; right; assumption.
Qed.

Lemma sort_yx_permutation l l' :
  l ≡ₚ l' -> distinct_keys l -> sort_by lt_yx l = sort_by lt_yx l'.
Proof.
  intros Hperm Hdistinct.
  apply (sorted_permutation_unique lt_yx lt_yx_irrefl).
  - apply (sort_by_sorted lt_yx lt_yx_irrefl lt_yx_trans).
  - apply (sort_by_sorted lt_yx lt_yx_irrefl lt_yx_trans).
  - rewrite !(sort_by_perm lt_yx). exact Hperm.
  - intros a b Ha Hb. rewrite (sort_by_perm lt_yx) in Ha, Hb. apply Hdistinct; assumption.
Qed.

(** X4. When no two different fragments have the same key [(y, x)], the
    text does not depend on the order in which the detector lists the
    fragments, nor on the pages after the first. *)
Theorem X4_order_of_detections_is_irrelevant (ds ds' : list Detection)
    (more more' : list (option (list Detection))) :
  ds ≡ₚ ds' ->
  distinct_keys (map text_coordinate ds) ->
  process_ocr_result (first_page ds more) = process_ocr_result (first_page ds' more').
Proof.
  intros Hperm Hdistinct.
  destruct ds as [|d ds].
  - apply Permutation_nil in Hperm as ->. reflexivity.
  - destruct ds' as [|d' ds'];
      [symmetry in Hperm; apply Permutation_nil in Hperm; discriminate|].
    rewrite !process_ocr_result_refines. unfold spec_cluster.
    rewrite (sort_yx_permutation (map text_coordinate (d :: ds))
               (map text_coordinate (d' :: ds')));
      [reflexivity|apply Permutation_map, Hperm|exact Hdistinct].
Qed.

Lemma close_sorted_spec a b :
  (item_y a < item_y b)%Q ->
  close a b = Qle_bool (item_y b - item_y a) line_threshold.
Proof.
  intros H. unfold close. apply Qleb_comp; [|reflexivity].
  apply Qabs_pos. lra.
Qed.

(** X5. Two fragments at different heights whose boxes have pixel
    coordinates (whole numbers from 0 up to 2^52, on which the arithmetic
    of the source is exact): they share a line exactly when the lower one
    is at most 18 below the upper one (the bound included), and then the
    one further left comes first even when it is the lower one; otherwise
    the upper one is on the first line and the lower one on the second.
    The order in which the detector lists them does not matter. *)
Theorem X5_two_fragments (upper lower : Detection)
    (more : list (option (list Detection))) :
  pixel_box upper -> pixel_box lower ->
  let a := text_coordinate upper in
  let b := text_coordinate lower in
  (item_y a < item_y b)%Q ->
  process_ocr_result (first_page [lower; upper] more)
  = process_ocr_result (first_page [upper; lower] more) /\
  process_ocr_result (first_page [upper; lower] more)
  = Ok (if Qle_bool (item_y b - item_y a) 18
        then if Qltb (item_x b) (item_x a)
             then det_text lower +:+ " " +:+ det_text upper
             else det_text upper +:+ " " +:+ det_text lower
        else det_text upper +:+ newline +:+ det_text lower).
Proof.
  intros _ _ a b Hy.
  destruct (lt_yx_of_y_lt a b Hy) as [Hab Hba].
  assert (Hsort1 : sort_by lt_yx [a; b] = [a; b]).
  { unfold sort_by. cbn [foldl insert_sorted]. rewrite Hba. reflexivity. }
  assert (Hsort2 : sort_by lt_yx [b; a] = [a; b]).
  { unfold sort_by. cbn [foldl insert_sorted]. rewrite Hab. reflexivity. }
  assert (Hrun : forall input, sort_by lt_yx (map text_coordinate input) = [a; b] ->
            input <> [] ->
            process_ocr_result (first_page input more)
            = Ok (if Qle_bool (item_y b - item_y a) 18
                  then if Qltb (item_x b) (item_x a)
                       then det_text lower +:+ " " +:+ det_text upper
                       else det_text upper +:+ " " +:+ det_text lower
                  else det_text upper +:+ newline +:+ det_text lower)).
  { intros input Hsort Hne. destruct input as [|d input]; [contradiction|].
    unfold process_ocr_result, first_page. rewrite Hsort.
    cbn [group_loop last].
    change (Qle_bool (Qabs (item_y b - item_y a)) line_threshold) with (close a b).
    rewrite (close_sorted_spec a b Hy). unfold line_threshold.
    destruct (Qle_bool (item_y b - item_y a) 18).
    - cbn [app]. unfold format_line, sort_by. cbn [foldl insert_sorted].
      change (lt_x b a) with (Qltb (item_x b) (item_x a)).
      destruct (Qltb (item_x b) (item_x a)); reflexivity.
    - reflexivity. }
  split.
  - rewrite (Hrun [lower; upper]), (Hrun [upper; lower]);
      try reflexivity; try discriminate; assumption.
  - apply Hrun; [exact Hsort1|discriminate].
Qed.

(** ** Counting words *)

Lemma is_space_code c : is_space c = true -> (nat_of_ascii c <= 32)%nat.
Proof.
  unfold is_space. cbv zeta.
  rewrite orb_true_iff, !andb_true_iff, !Nat.leb_le. lia.
Qed.

Lemma is_space2_code a b : is_space2 a b = true -> (128 <= nat_of_ascii b)%nat.
Proof.
  unfold is_space2. cbv zeta.
  rewrite andb_true_iff, orb_true_iff, !Nat.eqb_eq. lia.
Qed.

Lemma is_space3_code a b c :
  is_space3 a b c = true -> (128 <= nat_of_ascii b)%nat /\ (128 <= nat_of_ascii c)%nat.
Proof.
  unfold is_space3. cbv zeta.
  rewrite !orb_true_iff, !andb_true_iff, !orb_true_iff, !andb_true_iff,
    !Nat.eqb_eq, !Nat.leb_le. lia.
Qed.

(** A blank character of one byte is no part of a longer blank
    character. *)
Lemma is_space2_blank a c : is_space c = true -> is_space2 a c = false.
Proof.
  intros Hc. apply is_space_code in Hc.
  destruct (is_space2 a c) eqn:E; [|reflexivity].
  apply is_space2_code in E. lia.
Qed.

Lemma is_space3_blank_last a b c : is_space c = true -> is_space3 a b c = false.
Proof.
  intros Hc. apply is_space_code in Hc.
  destruct (is_space3 a b c) eqn:E; [|reflexivity].
  apply is_space3_code in E. lia.
Qed.

Lemma is_space3_blank_middle a c x : is_space c = true -> is_space3 a c x = false.
Proof.
  intros Hc. apply is_space_code in Hc.
  destruct (is_space3 a c x) eqn:E; [|reflexivity].
  apply is_space3_code in E. lia.
Qed.

Lemma count_words_unfold in_word a s1 :
  count_words in_word (String a s1)
  = if is_space a then count_words false s1
    else
      match s1 with
      | String b s2 =>
          if is_space2 a b then count_words false s2
          else
            match s2 with
            | String c s3 =>
                if is_space3 a b c then count_words false s3
                else word_step in_word (count_words true s1)
            | EmptyString => word_step in_word (count_words true s1)
            end
      | EmptyString => word_step in_word (count_words true s1)
      end.
Proof. reflexivity. Qed.

Lemma count_words_blank in_word c t :
  is_space c = true -> count_words in_word (String c t) = count_words false t.
Proof. intros Hc. rewrite count_words_unfold, Hc. reflexivity. Qed.

Lemma word_step_add in_word n m : word_step in_word (n + m) = word_step in_word n + m.
Proof. destruct in_word; reflexivity. Qed.

(** A blank character of one byte ends the count of what precedes it. *)
Lemma count_words_append_blank_bounded n : forall s in_word c t,
  String.length s <= n ->
  is_space c = true ->
  count_words in_word (s +:+ String c t) = count_words in_word s + count_words false t.
Proof.
  induction n as [|n IH]; intros s in_word c t Hlen Hc.
  - destruct s; [|cbn in Hlen; lia].
    rewrite append_nil_l. apply count_words_blank, Hc.
  - destruct s as [|a s1].
    { rewrite append_nil_l. apply count_words_blank, Hc. }
    cbn [String.length] in Hlen.
    assert (Hs1 : count_words true (s1 +:+ String c t)
                  = count_words true s1 + count_words false t)
      by (apply IH; [lia|exact Hc]).
    rewrite append_cons, !count_words_unfold.
    destruct (is_space a); [apply IH; [lia|exact Hc]|].
    destruct s1 as [|b s2].
    { rewrite append_nil_l in *. rewrite (is_space2_blank a c Hc).
      destruct t as [|x t];
        rewrite ?(is_space3_blank_middle a c x Hc), Hs1; apply word_step_add. }
    cbn [String.length] in Hlen. rewrite append_cons in *.
    destruct (is_space2 a b); [apply IH; [lia|exact Hc]|].
    destruct s2 as [|c' s3].
    { rewrite append_nil_l in *. rewrite (is_space3_blank_last a b c Hc), Hs1.
      apply word_step_add. }
    cbn [String.length] in Hlen. rewrite append_cons in *.
    destruct (is_space3 a b c'); [apply IH; [lia|exact Hc]|].
    rewrite Hs1. apply word_step_add.
Qed.

Lemma count_words_append_blank s in_word c t :
  is_space c = true ->
  count_words in_word (s +:+ String c t) = count_words in_word s + count_words false t.
Proof. apply (count_words_append_blank_bounded (String.length s)). lia. Qed.

(** Joining with a single blank character adds up the word counts. *)
Lemma len_split_join c parts :
  is_space c = true ->
  len_split (join (String c EmptyString) parts) = sum_list (map len_split parts).
Proof.
  intros Hc. unfold join. induction parts as [|part parts IH]; [reflexivity|].
  destruct parts as [|part' parts].
  - cbn [String.concat map]. unfold sum_list, sum_list_with, id. lia.
  - change (String.concat (String c "") (part :: part' :: parts))
      with (part +:+ String c (String.concat (String c "") (part' :: parts))).
    unfold len_split at 1. rewrite count_words_append_blank by exact Hc.
    fold (len_split part).
    fold (len_split (String.concat (String c "") (part' :: parts))).
    rewrite IH. reflexivity.
Qed.

Lemma sum_list_perm (l l' : list nat) : l ≡ₚ l' -> sum_list l = sum_list l'.
Proof.
  induction 1 as [|x l l' _ IH|x y l|l1 l2 l3 _ IH1 _ IH2]; cbn; unfold id in *; lia.
Qed.

Lemma sum_list_app (l l' : list nat) : sum_list (l ++ l') = sum_list l + sum_list l'.
Proof. induction l as [|x l IH]; cbn; unfold id in *; lia. Qed.

Lemma len_split_spec_format (lines : list (list Item)) :
  len_split (spec_format lines)
  = sum_list (map (fun i => len_split (item_text i)) (concat lines)).
Proof.
  unfold spec_format.
  change newline with (String (ascii_of_nat 10) EmptyString).
  rewrite len_split_join by reflexivity.
  induction lines as [|line lines IH]; [reflexivity|].
  cbn [map concat]. rewrite map_app, sum_list_app, <- IH.
  change (sum_list (?x :: ?l)) with (x + sum_list l). f_equal.
  change " " with (String " " EmptyString).
  rewrite len_split_join by reflexivity. rewrite map_map.
  apply sum_list_perm, Permutation_map, (sort_by_perm lt_x).
Qed.

Lemma sum_list_ones {A} (f : A -> nat) l :
  Forall (fun x => f x = 1) l -> sum_list (map f l) = length l.
Proof.
  induction 1 as [|x l Hx _ IH]; [reflexivity|].
  cbn [map length]. change (sum_list (?x :: ?l)) with (x + sum_list l).
  rewrite Hx, IH. reflexivity.
Qed.

(** X6. The number of words that [len(text.split())] counts in the
    reconstructed text is the sum of the numbers it counts in the detected
    texts, whatever characters they hold; so when every detected text
    counts as one word, it is the number of fragments. *)
Theorem X6_word_count_adds_up (d : Detection) (ds : list Detection)
    (more : list (option (list Detection))) :
  exists text,
    process_ocr_result (first_page (d :: ds) more) = Ok text /\
    len_split text = words_detected (d :: ds) /\
    (Forall (fun d => len_split (det_text d) = 1) (d :: ds) ->
     len_split text = length (d :: ds)).
Proof.
  set (fragments := map text_coordinate (d :: ds)).
  exists (spec_format (spec_cluster fragments)).
  split; [apply process_ocr_result_refines|].
  assert (Hsum : len_split (spec_format (spec_cluster fragments))
                 = words_detected (d :: ds)).
  { rewrite len_split_spec_format. unfold words_detected.
    transitivity (sum_list (map (fun i => len_split (item_text i)) fragments)).
    - apply sum_list_perm, Permutation_map.
      rewrite spec_cluster_concat. apply (sort_by_perm lt_yx).
    - unfold fragments. rewrite map_map. reflexivity. }
  split; [exact Hsum|].
  intros Hwords. rewrite Hsum. unfold words_detected.
  apply (sum_list_ones (fun d => len_split (det_text d))), Hwords.
Qed.

(** ** The extension check *)

Lemma lower_ascii_dot a : Ascii.eqb (lower_ascii a) "." = Ascii.eqb a ".".
Proof. destruct a as [[] [] [] [] [] [] [] []]; reflexivity. Qed.

Lemma lower_ascii_idempotent a : lower_ascii (lower_ascii a) = lower_ascii a.
Proof. destruct a as [[] [] [] [] [] [] [] []]; reflexivity. Qed.

Lemma contains_dot_lower s : contains "." (lower s) = contains "." s.
Proof.
  induction s as [|a s IH]; [reflexivity|].
  cbn [lower contains]. rewrite lower_ascii_dot, IH. reflexivity.
Qed.

Lemma lower_idempotent s : lower (lower s) = lower s.
Proof.
  induction s as [|a s IH]; [reflexivity|].
  cbn [lower]. rewrite lower_ascii_idempotent, IH. reflexivity.
Qed.

Lemma allowed_file_suffix stem ext :
  contains "." ext = false ->
  allowed_file (stem +:+ "." +:+ ext) = Ok (bool_decide (lower ext ∈ ALLOWED_EXTENSIONS)).
Proof.
  intros Hext. unfold allowed_file, rsplit1.
  change (stem +:+ "." +:+ ext) with (stem +:+ String "." ext).
  rewrite contains_append_sep.
  assert (E : rsplit_last "." (stem +:+ String "." ext) = Some (stem, ext))
    by (apply rsplit_last_some; split; [reflexivity|exact Hext]).
  rewrite E. reflexivity.
Qed.

(** X7. [allowed_file] looks at nothing but the text after the last dot of
    the name, and at that text up to letter case: whatever precedes the
    last dot, also other dots and extensions, has no influence, and a name
    without a dot is refused. *)
Theorem X7_only_the_last_extension_counts (stem stem' ext : string) :
  contains "." ext = false ->
  allowed_file (stem +:+ "." +:+ ext)
  = Ok (bool_decide (lower ext ∈ ALLOWED_EXTENSIONS)) /\
  allowed_file (stem' +:+ "." +:+ ext) = allowed_file (stem +:+ "." +:+ ext) /\
  allowed_file (stem +:+ "." +:+ lower ext) = allowed_file (stem +:+ "." +:+ ext) /\
  allowed_file ext = Ok false.
Proof.
  intros Hext. repeat split.
  - apply allowed_file_suffix, Hext.
  - rewrite !allowed_file_suffix by exact Hext. reflexivity.
  - rewrite !allowed_file_suffix by (rewrite ?contains_dot_lower; exact Hext).
    rewrite lower_idempotent. reflexivity.
  - unfold allowed_file. rewrite Hext. reflexivity.
Qed.

(** * Further properties of the routes *)

Lemma process_ocr_result_empty result :
  fragments_of result = [] -> process_ocr_result result = Ok no_text_found.
Proof.
  destruct result as [[|[[|d ds]|] more]|]; try reflexivity. discriminate.
Qed.

(** X8. An image in which the detector finds nothing is not an error: the
    item's outcome is a success whose text is "No text found.".  In
    augmented mode, when both detector runs find nothing, both texts are
    the sentinel and each variant is reported with 3 words. *)
Theorem X8_nothing_detected_is_a_success {Image} (env : Env Image)
    (f : File) (s : State) (result : OcrResult) :
  accepted f = true ->
  let p := unique_path (uuid4 env (uuid_calls s)) f in
  save_outcome env f p = Saved ->
  detect_file env p (content f) = Ok result ->
  fragments_of result = [] ->
  (exists s',
     batch_item env f s = (Ok tt, s') /\
     results s' = results s ++ [success_outcome f no_text_found]) /\
  (forall gray_img augmented_img result',
     cvtColor env (decode_image env p (content f)) = Ok gray_img ->
     threshold env gray_img = Ok augmented_img ->
     detect_image env augmented_img = Ok result' ->
     fragments_of result' = [] ->
     exists s' o,
       augmented_item env f s = (Ok tt, s') /\
       results s' = results s ++ [o] /\
       o_status o = success /\ o_text o = no_text_found /\
       o_original_text o = Some no_text_found /\
       o_variants o = Some [mkVariant "Original" 3;
                            mkVariant "Grayscale + Threshold" 3]).
Proof.
  intros Hacc p Hsave Hdet Hempty.
  assert (Hid : identity_pure env p (content f) = Ok no_text_found).
  { unfold identity_pure. rewrite Hdet. apply process_ocr_result_empty, Hempty. }
  split.
  - eexists. split; [apply batch_item_run|].
    unfold item_end. rewrite Hacc. fold p. cbn [item_state results].
    unfold simple_summary. rewrite Hsave, Hid. reflexivity.
  - intros gray_img augmented_img result' Hcvt Hthr Hdet' Hempty'.
    exists (item_end env (augmented_summary env) f s).
    exists (augmented_outcome f no_text_found no_text_found).
    split; [apply augmented_item_run|].
    split; [|repeat split].
    unfold item_end. rewrite Hacc. fold p. cbn [item_state results].
    unfold augmented_summary, augmentation_pure.
    rewrite Hsave, Hid, Hcvt, Hthr, Hdet'.
    rewrite (process_ocr_result_empty result' Hempty'). reflexivity.
Qed.

Lemma nothing_selected_true files :
  Forall (fun f => filename f = "") files -> nothing_selected files = true.
Proof.
  intros H. unfold nothing_selected. destruct files as [|f files]; [reflexivity|].
  apply forallb_forall. intros g Hg. apply list_elem_of_In in Hg.
  rewrite Forall_forall in H. rewrite (H g Hg). reflexivity.
Qed.

Lemma filter_removal (P : Event -> bool) p m :
  P (EvRemove p) = false -> List.filter P (removal p m) = [].
Proof.
  intros H. unfold removal. destruct (bool_decide _); [|reflexivity].
  cbn. rewrite H. reflexivity.
Qed.

Section Accounting.
Context {Image : Type} (env : Env Image).
Variable summary : string -> File -> Res Outcome * list Event.
Hypothesis summary_no_makedirs :
  forall p f, List.filter is_makedirs (snd (summary p f)) = [].
Hypothesis summary_one_save :
  forall p f, List.filter is_save (snd (summary p f)) = [EvSave p].

Lemma item_end_accounting f s :
  upload_folder_exists (item_end env summary f s) = upload_folder_exists s /\
  uuid_calls (item_end env summary f s)
  = uuid_calls s + (if accepted f then 1 else 0) /\
  List.filter is_makedirs (log (item_end env summary f s))
  = List.filter is_makedirs (log s) /\
  length (List.filter is_save (log (item_end env summary f s)))
  = length (List.filter is_save (log s)) + (if accepted f then 1 else 0).
Proof.
  unfold item_end. destruct (accepted f); cbn [item_state set_results
    upload_folder_exists uuid_calls log].
  - rewrite !List.filter_app, summary_no_makedirs, summary_one_save.
    rewrite !filter_removal by reflexivity. rewrite !app_nil_r, length_app.
    repeat split; cbn [length]; lia.
  - repeat split; lia.
Qed.

Lemma loop_end_accounting files : forall s,
  upload_folder_exists (loop_end env summary files s) = upload_folder_exists s /\
  uuid_calls (loop_end env summary files s)
  = uuid_calls s + length (List.filter accepted files) /\
  List.filter is_makedirs (log (loop_end env summary files s))
  = List.filter is_makedirs (log s) /\
  length (List.filter is_save (log (loop_end env summary files s)))
  = length (List.filter is_save (log s)) + length (List.filter accepted files).
Proof.
  induction files as [|f files IH]; intros s.
  - cbn. repeat split; lia.
  - cbn [loop_end foldl List.filter].
    fold (loop_end env summary files (item_end env summary f s)).
    destruct (IH (item_end env summary f s)) as (H1 & H2 & H3 & H4).
    destruct (item_end_accounting f s) as (E1 & E2 & E3 & E4).
    rewrite H1, H2, H3, H4, E1, E2, E3, E4.
    destruct (accepted f); cbn [length]; repeat split; lia.
Qed.
End Accounting.

Lemma simple_summary_no_makedirs {Image} (env : Env Image) p f :
  List.filter is_makedirs (snd (simple_summary env p f)) = [].
Proof. unfold simple_summary. destruct (save_outcome env f p); reflexivity. Qed.

Lemma simple_summary_one_save {Image} (env : Env Image) p f :
  List.filter is_save (snd (simple_summary env p f)) = [EvSave p].
Proof. unfold simple_summary. destruct (save_outcome env f p); reflexivity. Qed.

Lemma augmentation_pure_events {Image} (env : Env Image) p c :
  List.filter is_makedirs (snd (augmentation_pure env p c)) = [] /\
  List.filter is_save (snd (augmentation_pure env p c)) = [].
Proof.
  unfold augmentation_pure.
  destruct (cvtColor env (decode_image env p c)) as [g|e]; [|split; reflexivity].
  destruct (threshold env g) as [a|e]; split; reflexivity.
Qed.

Lemma augmented_summary_no_makedirs {Image} (env : Env Image) p f :
  List.filter is_makedirs (snd (augmented_summary env p f)) = [].
Proof.
  unfold augmented_summary. destruct (save_outcome env f p); [|reflexivity].
  destruct (identity_pure env p (content f)); [|reflexivity].
  destruct (augmentation_pure_events env p (content f)) as [H _].
  destruct (augmentation_pure env p (content f)) as [r evs]. cbn [snd] in *.
  cbn. exact H.
Qed.

Lemma augmented_summary_one_save {Image} (env : Env Image) p f :
  List.filter is_save (snd (augmented_summary env p f)) = [EvSave p].
Proof.
  unfold augmented_summary. destruct (save_outcome env f p); [|reflexivity].
  destruct (identity_pure env p (content f)); [|reflexivity].
  destruct (augmentation_pure_events env p (content f)) as [_ H].
  destruct (augmentation_pure env p (content f)) as [r evs]. cbn [snd] in *.
  cbn. rewrite H. reflexivity.
Qed.

(** The facts shared by the two loop bodies. *)
Lemma loop_bodies {Image} (env : Env Image) item :
  item = batch_item env \/ item = augmented_item env ->
  exists summary,
    (forall f s, item f s = (Ok tt, item_end env summary f s)) /\
    (forall p f, List.filter is_makedirs (snd (summary p f)) = []) /\
    (forall p f, List.filter is_save (snd (summary p f)) = [EvSave p]).
Proof.
  intros [->| ->].
  - exists (simple_summary env). split; [apply batch_item_run|].
    split; [apply simple_summary_no_makedirs|apply simple_summary_one_save].
  - exists (augmented_summary env). split; [apply augmented_item_run|].
    split; [apply augmented_summary_no_makedirs|apply augmented_summary_one_save].
Qed.

Lemma loop_start_facts s :
  upload_folder_exists (loop_start s) = true /\
  uuid_calls (loop_start s) = uuid_calls s /\
  log (loop_start s)
  = log s ++ (if upload_folder_exists s then [] else [EvMakedirs UPLOAD_FOLDER]).
Proof.
  unfold loop_start, folder_ready. cbn.
  destruct (upload_folder_exists s) eqn:E; cbn; rewrite ?app_nil_r; auto.
Qed.

(** X9. Both batch routes answer a request without the field [files], or
    whose files all have an empty name, with status 400 and leave the
    state untouched: no folder is created and no call is made.  A request
    with a named file is answered with status 200; afterwards the upload
    folder exists, and [os.makedirs] was called exactly when the folder
    did not exist before. *)
Theorem X9_batch_request_validation {Image} (env : Env Image)
    (item : File -> M unit) (request : Request) (s : State) :
  item = batch_item env \/ item = augmented_item env ->
  (request_files request !! "files" = None ->
   batch_route item request s
   = (Ok (ErrorBody "No files part in the request", 400%nat), s)) /\
  (forall files,
     request_files request !! "files" = Some files ->
     Forall (fun f => filename f = "") files ->
     batch_route item request s
     = (Ok (ErrorBody "No files selected for uploading", 400%nat), s)) /\
  (forall files,
     request_files request !! "files" = Some files ->
     (exists f, f ∈ files /\ filename f <> "") ->
     exists outs s',
       batch_route item request s = (Ok (ResultsBody outs, 200%nat), s') /\
       upload_folder_exists s' = true /\
       List.filter is_makedirs (log s')
       = List.filter is_makedirs (log s)
         ++ (if upload_folder_exists s then [] else [EvMakedirs UPLOAD_FOLDER])).
Proof.
  intros Hitem. destruct (loop_bodies env item Hitem) as (summary & Hrun & Hmk & Hsave).
  split; [|split].
  - intros Hnone. unfold batch_route. rewrite Hnone. reflexivity.
  - intros files Hfiles Hnames. unfold batch_route.
    rewrite Hfiles, (nothing_selected_true files Hnames). reflexivity.
  - intros files Hfiles Hsel. apply nothing_selected_false in Hsel.
    do 2 eexists. split; [apply (batch_route_run env item summary request files s Hrun Hfiles Hsel)|].
    destruct (loop_end_accounting env summary Hmk Hsave files (loop_start s))
      as (H1 & _ & H3 & _).
    destruct (loop_start_facts s) as (L1 & _ & L3).
    rewrite H1, H3, L1, L3, List.filter_app. split; [reflexivity|].
    destruct (upload_folder_exists s); reflexivity.
Qed.

(** X10. A batch route draws one random identifier and calls [file.save]
    once for every accepted item of the request, and for no other item. *)
Theorem X10_one_identifier_and_one_save_per_accepted_item {Image} (env : Env Image)
    (item : File -> M unit) (request : Request) (files : list File) (s : State) :
  item = batch_item env \/ item = augmented_item env ->
  request_files request !! "files" = Some files ->
  (exists f, f ∈ files /\ filename f <> "") ->
  exists response s',
    batch_route item request s = (Ok response, s') /\
    uuid_calls s' = uuid_calls s + length (List.filter accepted files) /\
    length (List.filter is_save (log s'))
    = length (List.filter is_save (log s)) + length (List.filter accepted files).
Proof.
  intros Hitem Hfiles Hsel.
  destruct (loop_bodies env item Hitem) as (summary & Hrun & Hmk & Hsave).
  apply nothing_selected_false in Hsel.
  do 2 eexists. split; [apply (batch_route_run env item summary request files s Hrun Hfiles Hsel)|].
  destruct (loop_end_accounting env summary Hmk Hsave files (loop_start s))
    as (_ & H2 & _ & H4).
  destruct (loop_start_facts s) as (_ & L2 & L3).
  rewrite H2, H4, L2, L3, List.filter_app, length_app. split; [reflexivity|].
  destruct (upload_folder_exists s); cbn; lia.
Qed.

(** X11. The single-file route looks at the first file of the field
    [file] only.  Without the field the answer is 400 "No file part in the
    request", for an empty name 400 "No file selected for uploading", in
    both cases with the state untouched.  For an accepted file that was
    saved, the answer is 200 with the reconstructed text when the detector
    returns, and 500 with the message of the exception after the fixed
    prefix when the detector raises. *)
Theorem X11_single_route_responses {Image} (env : Env Image)
    (request : Request) (s : State) :
  (request_files request !! "file" = None ->
   upload_and_ocr env request s
   = (Ok (ErrorBody "No file part in the request", 400%nat), s)) /\
  (forall f rest,
     request_files request !! "file" = Some (f :: rest) ->
     (filename f = "" ->
      upload_and_ocr env request s
      = (Ok (ErrorBody "No file selected for uploading", 400%nat), s)) /\
     (accepted f = true ->
      let p := os_path_join UPLOAD_FOLDER (filename f) in
      save_outcome env f p = Saved ->
      (forall result,
         detect_file env p (content f) = Ok result ->
         exists text s',
           process_ocr_result result = Ok text /\
           upload_and_ocr env request s = (Ok (TextBody text, 200%nat), s')) /\
      (forall e,
         detect_file env p (content f) = Raise e ->
         exists s',
           upload_and_ocr env request s
           = (Ok (ErrorBody ("An error occurred during OCR processing: " +:+ str e),
                  500%nat), s')))).
Proof.
  split.
  - intros Hnone. unfold upload_and_ocr. rewrite Hnone. reflexivity.
  - intros f rest Hfile. split.
    + intros Hname. unfold upload_and_ocr. rewrite Hfile, Hname. reflexivity.
    + intros Hacc p Hsave.
      pose proof (upload_and_ocr_run env request f rest s Hfile Hacc) as Hrun.
      cbv zeta in Hrun. fold p in Hrun. rewrite Hsave in Hrun. split.
      * intros result Hdet. destruct (process_ocr_result_total result) as [text Htext].
        exists text. eexists. split; [exact Htext|].
        rewrite Hrun. unfold identity_pure. rewrite Hdet, Htext. reflexivity.
      * intros e Hdet. eexists.
        rewrite Hrun. unfold identity_pure. rewrite Hdet. reflexivity.
Qed.

Lemma fs_item_end_exact {Image} (env : Env Image) summary f s :
  fs (item_end env summary f s)
  = if accepted f then delete (unique_path (uuid4 env (uuid_calls s)) f) (fs s)
    else fs s.
Proof. unfold item_end. destruct (accepted f); reflexivity. Qed.

Lemma fs_loop_end_fresh {Image} (env : Env Image) summary files : forall s,
  (forall f n, f ∈ files -> fs s !! unique_path (uuid4 env n) f = None) ->
  fs (loop_end env summary files s) = fs s.
Proof.
  induction files as [|f files IH]; intros s Hfresh; [reflexivity|].
  cbn [loop_end foldl]. fold (loop_end env summary files (item_end env summary f s)).
  assert (Hitem : fs (item_end env summary f s) = fs s).
  { rewrite fs_item_end_exact. destruct (accepted f); [|reflexivity].
    apply delete_id, Hfresh. left. }
  rewrite IH; [exact Hitem|].
  intros g n Hg. rewrite Hitem. apply Hfresh. right. exact Hg.
Qed.

(** X12. What a batch route changes in the file system.  An accepted item
    of a batch loop ends with the regular files it started with, minus
    whatever was stored at its temporary path: this also holds when
    [file.save] failed, and a file that was at that path before the item
    is deleted.  A rejected item changes no file, and no item creates or
    removes the upload folder.  Hence a batch route whose temporary paths
    were all free leaves every regular file as it found it; the one change
    it makes is the upload folder, which exists after every request with a
    named file, also when it did not exist before.  A request without a
    named file changes nothing. *)
Theorem X12_batch_changes_only_the_upload_folder {Image} (env : Env Image)
    (item : File -> M unit) :
  item = batch_item env \/ item = augmented_item env ->
  (forall f s, exists s',
     item f s = (Ok tt, s') /\
     fs s' = (if accepted f
              then delete (unique_path (uuid4 env (uuid_calls s)) f) (fs s)
              else fs s) /\
     upload_folder_exists s' = upload_folder_exists s) /\
  (forall request files s r s',
     request_files request !! "files" = Some files ->
     (forall f n, f ∈ files -> fs s !! unique_path (uuid4 env n) f = None) ->
     batch_route item request s = (r, s') ->
     fs s' = fs s /\
     upload_folder_exists s'
     = (if nothing_selected files then upload_folder_exists s else true)).
Proof.
  intros Hitem.
  destruct (loop_bodies env item Hitem) as (summary & Hrun & Hmk & Hsave).
  split.
  - intros f s. eexists. split; [apply Hrun|].
    split; [apply fs_item_end_exact|].
    apply (item_end_accounting env summary Hmk Hsave f s).
  - intros request files s r s' Hfiles Hfresh Hroute.
    destruct (nothing_selected files) eqn:Hsel.
    + unfold batch_route in Hroute. rewrite Hfiles, Hsel in Hroute.
      injection Hroute as _ <-. split; reflexivity.
    + rewrite (batch_route_run env item summary request files s Hrun Hfiles Hsel)
        in Hroute.
      injection Hroute as _ <-. split.
      * rewrite fs_loop_end_fresh; [apply fs_loop_start|].
        intros f n Hf. rewrite fs_loop_start. apply Hfresh, Hf.
      * destruct (loop_end_accounting env summary Hmk Hsave files (loop_start s))
          as (H1 & _).
        rewrite H1. apply loop_start_facts.
Qed.

(** X13. The single-file route stores the upload under the name the client
    chose: the path it uses is the name itself when the name is absolute,
    and the name inside the upload folder otherwise.  When [file.save]
    returns, the route calls [file.save], the detector and [os.remove]
    with that path, in this order, and nothing is stored at that path
    afterwards: what the path named before the request has been
    overwritten and removed. *)
Theorem X13_single_route_storage_path {Image} (env : Env Image)
    (request : Request) (f : File) (rest : list File) (s : State) :
  request_files request !! "file" = Some (f :: rest) ->
  accepted f = true ->
  let p := os_path_join UPLOAD_FOLDER (filename f) in
  save_outcome env f p = Saved ->
  (starts_with_slash (filename f) = true -> p = filename f) /\
  (starts_with_slash (filename f) = false -> p = "uploads/" +:+ filename f) /\
  exists response s',
    upload_and_ocr env request s = (Ok response, s') /\
    fs s' !! p = None /\
    log s' = log (folder_ready s) ++ [EvSave p; EvOcrPath p; EvRemove p].
Proof.
  intros Hfile Hacc p Hsave. split; [|split].
  - intros H. unfold p, os_path_join. rewrite H. reflexivity.
  - intros H. unfold p, os_path_join. rewrite H. reflexivity.
  - pose proof (upload_and_ocr_run env request f rest s Hfile Hacc) as Hrun.
    cbv zeta in Hrun. fold p in Hrun. rewrite Hsave in Hrun.
    do 2 eexists. split; [exact Hrun|]. split; [|reflexivity].
    cbn [fs]. apply lookup_delete_eq.
Qed.

(** X14. A failing [file.save] ends differently in the routes.  In the
    single-file route the call precedes the [try] statement: the exception
    leaves the route, no response is built, and the destination, if the
    failed call created it, stays.  In a batch loop the call is inside the
    [try] statement: the item gets the error outcome with the message of
    the exception and nothing is left at its temporary path. *)
Theorem X14_failed_save {Image} (env : Env Image) (f : File) (e : exn)
    (partial : option string) :
  accepted f = true ->
  (forall request rest s,
     request_files request !! "file" = Some (f :: rest) ->
     let p := os_path_join UPLOAD_FOLDER (filename f) in
     save_outcome env f p = SaveFailed e partial ->
     exists s',
       upload_and_ocr env request s = (Raise e, s') /\
       fs s' = match partial with
               | Some c => <[p := c]> (fs s)
               | None => fs s
               end /\
       log s' = log (folder_ready s) ++ [EvSave p]) /\
  (forall item s,
     item = batch_item env \/ item = augmented_item env ->
     let p := unique_path (uuid4 env (uuid_calls s)) f in
     save_outcome env f p = SaveFailed e partial ->
     exists s' o,
       item f s = (Ok tt, s') /\
       results s' = results s ++ [o] /\
       error_entry (filename f) (str e) o /\
       fs s' !! p = None).
Proof.
  intros Hacc. split.
  - intros request rest s Hfile p Hsave.
    pose proof (upload_and_ocr_run env request f rest s Hfile Hacc) as Hrun.
    cbv zeta in Hrun. fold p in Hrun. rewrite Hsave in Hrun.
    eexists. split; [exact Hrun|]. cbn [fs log]. split; [|reflexivity].
    unfold fs_after_save. fold p. rewrite Hsave. destruct partial; reflexivity.
  - intros item s [->| ->] p Hsave; eexists;
      exists (error_outcome (filename f) (str e)).
    + split; [apply batch_item_run|].
      unfold item_end. rewrite Hacc. fold p. cbn [item_state results fs].
      unfold simple_summary. rewrite Hsave.
      split; [reflexivity|]. split; [repeat split|apply lookup_delete_eq].
    + split; [apply augmented_item_run|].
      unfold item_end. rewrite Hacc. fold p. cbn [item_state results fs].
      unfold augmented_summary. rewrite Hsave.
      split; [reflexivity|]. split; [repeat split|apply lookup_delete_eq].
Qed.

(** ** The length of the text *)

Lemma sum_list_map_perm {A} (f : A -> nat) l l' :
  l ≡ₚ l' -> sum_list (map f l) = sum_list (map f l').
Proof.
  induction 1 as [|x l l' _ IH|x y l|l1 l2 l3 _ IH1 _ IH2]; cbn; unfold id in *; lia.
Qed.

Lemma sum_list_map_app {A} (f : A -> nat) l l' :
  sum_list (map f (l ++ l')) = sum_list (map f l) + sum_list (map f l').
Proof. induction l as [|x l IH]; cbn; unfold id in *; lia. Qed.

Lemma length_format_line line :
  line <> [] ->
  String.length (format_line line) + 1
  = sum_list (map (fun i => String.length (item_text i)) line) + length line.
Proof.
  intros Hne. unfold format_line. rewrite length_join, !length_map, map_map.
  pose proof (sort_by_perm lt_x line) as Hperm.
  rewrite (sum_list_map_perm _ _ _ Hperm), (Permutation_length Hperm).
  destruct line as [|i line]; [contradiction|]. cbn [length String.length]. lia.
Qed.

Lemma length_formatted_lines (lines : list (list Item)) :
  Forall (fun line => line <> []) lines ->
  sum_list (map String.length (map format_line lines)) + length lines
  = sum_list (map (fun i => String.length (item_text i)) (concat lines))
    + length (concat lines).
Proof.
  induction 1 as [|line lines Hne _ IH]; [reflexivity|].
  cbn [map concat length]. rewrite sum_list_map_app, length_app.
  pose proof (length_format_line line Hne).
  change (sum_list (String.length (format_line line)
                    :: map String.length (map format_line lines)))
    with (String.length (format_line line)
          + sum_list (map String.length (map format_line lines))).
  lia.
Qed.

(** X15. The text reconstructed from a result with fragments consists of
    the texts of the fragments and of exactly one separator character, a
    space or a newline, for every fragment but one: its length is the
    total length of the texts plus the number of fragments minus one.  So
    the text is empty only for a single fragment with an empty text. *)
Theorem X15_length_of_the_text (d : Detection) (ds : list Detection)
    (more : list (option (list Detection))) :
  exists text,
    process_ocr_result (first_page (d :: ds) more) = Ok text /\
    String.length text + 1
    = sum_list (map (fun d => String.length (det_text d)) (d :: ds))
      + length (d :: ds) /\
    (text = "" <-> ds = [] /\ det_text d = "").
Proof.
  set (fragments := map text_coordinate (d :: ds)).
  set (lines := spec_cluster fragments).
  exists (spec_format lines).
  assert (Hlen : String.length (spec_format lines) + 1
                 = sum_list (map (fun d => String.length (det_text d)) (d :: ds))
                   + length (d :: ds)).
  { assert (Hperm : concat lines ≡ₚ fragments).
    { unfold lines. rewrite spec_cluster_concat. apply (sort_by_perm lt_yx). }
    assert (Hlines : lines <> []).
    { intros E. rewrite E in Hperm. apply Permutation_nil in Hperm. discriminate. }
    pose proof (length_formatted_lines lines (spec_cluster_nonempty fragments)) as H.
    rewrite (sum_list_map_perm _ _ _ Hperm), (Permutation_length Hperm) in H.
    assert (Hsum : sum_list (map (fun i => String.length (item_text i)) fragments)
                   = sum_list (map (fun d => String.length (det_text d)) (d :: ds)))
      by (unfold fragments; rewrite map_map; reflexivity).
    assert (Hcount : length fragments = length (d :: ds))
      by (unfold fragments; apply length_map).
    rewrite Hsum, Hcount in H.
    rewrite <- H. unfold spec_format.
    change (map (fun line => join " " (map item_text (sort_by lt_x line))) lines)
      with (map format_line lines).
    rewrite length_join, length_map.
    destruct lines as [|l lines']; [contradiction|].
    cbn [length String.length newline]. lia. }
  split; [apply process_ocr_result_refines|]. split; [exact Hlen|].
  split.
  - intros E. rewrite E in Hlen. cbn [String.length map length] in Hlen.
    change (sum_list (String.length (det_text d)
                      :: map (fun d => String.length (det_text d)) ds))
      with (String.length (det_text d)
            + sum_list (map (fun d => String.length (det_text d)) ds)) in Hlen.
    split.
    + destruct ds; [reflexivity|cbn [length] in Hlen; lia].
    + destruct (det_text d); [reflexivity|cbn [String.length] in Hlen; lia].
  - intros [-> Ht]. cbn [map length] in Hlen. rewrite Ht in Hlen.
    change (sum_list [String.length ""]) with 0 in Hlen.
    revert Hlen. generalize (spec_format lines). intros t Hlen.
    destruct t; [reflexivity|cbn [String.length] in Hlen; lia].
Qed.

(** X16. The augmented route does not check what [cv2.imread] returns:
    for an unreadable image the value [None] is handed to [cv2.cvtColor],
    and if that call raises, the item is an error with the message of that
    exception although its identity text was computed; the threshold and
    the second detector run are not reached.  The simple route gives the
    same file a success outcome with the identity text. *)
Theorem X16_unreadable_image {Image} (env : Env Image)
    (f : File) (s : State) (identity_text : string) (e : exn) :
  accepted f = true ->
  let p := unique_path (uuid4 env (uuid_calls s)) f in
  save_outcome env f p = Saved ->
  identity_pure env p (content f) = Ok identity_text ->
  decode_image env p (content f) = None ->
  cvtColor env None = Raise e ->
  (exists s' o,
     augmented_item env f s = (Ok tt, s') /\
     results s' = results s ++ [o] /\
     error_entry (filename f) (str e) o /\
     log s' = log s ++ [EvSave p; EvOcrPath p; EvImread p; EvCvtColor; EvRemove p]) /\
  (exists s',
     batch_item env f s = (Ok tt, s') /\
     results s' = results s ++ [success_outcome f identity_text]).
Proof.
  intros Hacc p Hsave Hid Hdecode Hcvt. split.
  - eexists. exists (error_outcome (filename f) (str e)).
    split; [apply augmented_item_run|].
    unfold item_end. rewrite Hacc. fold p. cbn [item_state results log].
    rewrite removal_after_save by exact Hsave.
    unfold augmented_summary, augmentation_pure.
    rewrite Hsave, Hid, Hdecode, Hcvt. repeat split.
  - eexists. split; [apply batch_item_run|].
    unfold item_end. rewrite Hacc. fold p. cbn [item_state results].
    unfold simple_summary. rewrite Hsave, Hid. reflexivity.
Qed.

(** X17. The two batch routes agree on a file: when the simple loop body
    gives an item an error outcome, the augmented loop body gives it the
    same outcome, and when the augmented one gives a success, the simple
    one does too and its text is the [original_text] of the augmented
    outcome. *)
Theorem X17_augmented_extends_simple {Image} (env : Env Image)
    (f : File) (s : State) :
  exists s1 s2 o1 o2,
    batch_item env f s = (Ok tt, s1) /\ results s1 = results s ++ [o1] /\
    augmented_item env f s = (Ok tt, s2) /\ results s2 = results s ++ [o2] /\
    (o_status o1 = error -> o2 = o1) /\
    (o_status o2 = success ->
     o_status o1 = success /\ o_original_text o2 = Some (o_text o1)).
Proof.
  exists (item_end env (simple_summary env) f s).
  exists (item_end env (augmented_summary env) f s).
  exists (item_outcome env (simple_summary env) f (uuid_calls s)).
  exists (item_outcome env (augmented_summary env) f (uuid_calls s)).
  split; [apply batch_item_run|]. split; [apply results_item_end|].
  split; [apply augmented_item_run|]. split; [apply results_item_end|].
  unfold item_outcome. destruct (accepted f).
  - unfold simple_summary, augmented_summary.
    destruct (save_outcome env f _) as [|e partial].
    + destruct (identity_pure env _ (content f)) as [t|e].
      * destruct (augmentation_pure env _ (content f)) as [[t'|e] evs];
          cbn [fst outcome_of]; split; try discriminate; intros _; split; reflexivity.
      * cbn [fst outcome_of]. split; [reflexivity|discriminate].
    + cbn [fst outcome_of]. split; [reflexivity|discriminate].
  - split; [reflexivity|discriminate].
Qed.

(** X18. Once [file.save] has returned, the temporary file is removed
    whatever the detector and the transform do: the log of the item holds
    one save and one removal of its temporary path, in this order, and no
    file is left at that path.  This holds for the items of both batch
    routes and for the single-file route.  The batch routes moreover leave
    no file behind that was not there before, whatever [file.save]
    does. *)
Theorem X18_storage_released_once_saved {Image} (env : Env Image) :
  (forall item,
     item = batch_item env \/ item = augmented_item env ->
     (forall f s,
        accepted f = true ->
        let p := unique_path (uuid4 env (uuid_calls s)) f in
        save_outcome env f p = Saved ->
        exists s' evs,
          item f s = (Ok tt, s') /\ fs s' !! p = None /\
          log s' = log s ++ evs /\
          List.filter storage_event evs = [EvSave p; EvRemove p]) /\
     (forall request s r s', batch_route item request s = (r, s') -> fs s' ⊆ fs s)) /\
  (forall request f rest s,
     request_files request !! "file" = Some (f :: rest) ->
     accepted f = true ->
     let p := os_path_join UPLOAD_FOLDER (filename f) in
     save_outcome env f p = Saved ->
     exists response s' evs,
       upload_and_ocr env request s = (Ok response, s') /\
       fs s' !! p = None /\ log s' = log s ++ evs /\
       List.filter storage_event evs = [EvSave p; EvRemove p]).
Proof.
  split.
  - intros item [->| ->]; split.
    + intros f s Hacc p Hsave.
      destruct (item_releases_storage env (simple_summary env) f s Hacc Hsave)
        as (evs & H1 & H2 & H3); [apply simple_storage_events, Hsave|].
      exists (item_end env (simple_summary env) f s), evs.
      split; [apply batch_item_run|]. auto.
    + intros request s r s'.
      apply (batch_route_no_leak env _ (simple_summary env)), batch_item_run.
    + intros f s Hacc p Hsave.
      destruct (item_releases_storage env (augmented_summary env) f s Hacc Hsave)
        as (evs & H1 & H2 & H3); [apply augmented_storage_events, Hsave|].
      exists (item_end env (augmented_summary env) f s), evs.
      split; [apply augmented_item_run|]. auto.
    + intros request s r s'.
      apply (batch_route_no_leak env _ (augmented_summary env)), augmented_item_run.
  - intros request f rest s Hfile Hacc p Hsave.
    pose proof (upload_and_ocr_run env request f rest s Hfile Hacc) as Hrun.
    cbv zeta in Hrun.
    fold p in Hrun. rewrite Hsave in Hrun.
    do 2 eexists.
    exists ((if upload_folder_exists s then [] else [EvMakedirs UPLOAD_FOLDER])
            ++ [EvSave p; EvOcrPath p; EvRemove p]).
    split; [exact Hrun|]. cbn [fs log]. split; [apply lookup_delete_eq|].
    unfold folder_ready. destruct (upload_folder_exists s); cbn [log];
      rewrite <- ?app_assoc; split; reflexivity.
Qed.

(** * Instances of the further properties *)

Lemma X3_two_lines_instance :
  (item_y (text_coordinate (fragment_at 100 "a")) + 18
   < item_y (text_coordinate (fragment_at 130 "b")))%Q.
Proof.
  destruct (X3_lines_top_to_bottom (fragment_at 130 "b") [fragment_at 100 "a"] [])
    as [_ H].
  apply (H 0%nat 1%nat [text_coordinate (fragment_at 100 "a")]
           [text_coordinate (fragment_at 130 "b")]).
  - lia.
  - vm_compute. reflexivity.
  - vm_compute. reflexivity.
  - apply list_elem_of_here.
  - apply list_elem_of_here.
Defined.

Lemma X4_swapped_instance :
  process_ocr_result (first_page [fragment_at 100 "a"; fragment_at 130 "b"] [])
  = process_ocr_result (first_page [fragment_at 130 "b"; fragment_at 100 "a"] [None]).
Proof.
  apply X4_order_of_detections_is_irrelevant.
  - apply perm_swap.
  - intros a b Ha Hb Ht. cbn [map] in Ha, Hb.
    apply elem_of_cons in Ha as [->|Ha];
      [|apply list_elem_of_singleton in Ha as ->];
      (apply elem_of_cons in Hb as [->|Hb];
         [|apply list_elem_of_singleton in Hb as ->]);
      try reflexivity; vm_compute in Ht; discriminate.
Defined.

Lemma X5_threshold_instance :
  process_ocr_result
    (first_page [fragment_xy 200 100 "right"; fragment_xy 10 118 "left"] [])
  = Ok "left right".
Proof.
  assert (Hpixel : forall n : Z, (0 <= n < 2 ^ 52)%Z -> pixel (inject_Z n))
    by (intros n Hn; exists n; split; [exact Hn|reflexivity]).
  destruct (X5_two_fragments (fragment_xy 200 100 "right")
              (fragment_xy 10 118 "left") []) as [_ H].
  - repeat split; [apply (Hpixel 200%Z)|apply (Hpixel 90%Z)|apply (Hpixel 110%Z)]; lia.
  - repeat split; [apply (Hpixel 10%Z)|apply (Hpixel 108%Z)|apply (Hpixel 128%Z)]; lia.
  - vm_compute. reflexivity.
  - rewrite H. vm_compute. reflexivity.
Defined.

Lemma X6_two_words_instance :
  exists text,
    process_ocr_result
      (first_page [fragment_at 100 "Hello"; fragment_at 140 no_break_text] [])
    = Ok text /\
    len_split text = 3%nat.
Proof.
  destruct (X6_word_count_adds_up (fragment_at 100 "Hello")
              [fragment_at 140 no_break_text] []) as (text & Hrun & Hsum & _).
  exists text. split; [exact Hrun|]. rewrite Hsum. vm_compute. reflexivity.
Defined.

Lemma X7_double_extension_instance :
  allowed_file ("report.png" +:+ "." +:+ "exe") = Ok false /\
  allowed_file ("report.exe" +:+ "." +:+ "PNG") = Ok true.
Proof.
  split.
  - destruct (X7_only_the_last_extension_counts "report.png" "" "exe" eq_refl)
      as (H & _).
    rewrite H. vm_compute. reflexivity.
  - destruct (X7_only_the_last_extension_counts "report.exe" "" "PNG" eq_refl)
      as (H & _).
    rewrite H. vm_compute. reflexivity.
Defined.

Lemma X8_blank_image_instance :
  exists s',
    batch_item env_blank scan_png empty_state = (Ok tt, s') /\
    results s' = [success_outcome scan_png no_text_found].
Proof.
  destruct (X8_nothing_detected_is_a_success env_blank scan_png empty_state None
              ltac:(vm_compute; reflexivity) eq_refl eq_refl eq_refl)
    as [H _].
  exact H.
Defined.

Lemma X9_unnamed_files_instance :
  batch_route (batch_item env_ok) (batch_request [unnamed_file]) empty_state
  = (Ok (ErrorBody "No files selected for uploading", 400%nat), empty_state).
Proof.
  destruct (X9_batch_request_validation env_ok (batch_item env_ok)
              (batch_request [unnamed_file]) empty_state (or_introl eq_refl))
    as (_ & H & _).
  apply (H [unnamed_file]); [reflexivity|repeat constructor].
Defined.

Lemma X10_accounting_instance :
  exists response s',
    batch_route (batch_item env_ok)
                (batch_request [scan_png; anim_gif; photo_jpg]) empty_state
    = (Ok response, s') /\
    uuid_calls s' = 2%nat /\
    length (List.filter is_save (log s')) = 2%nat.
Proof.
  destruct (X10_one_identifier_and_one_save_per_accepted_item env_ok
              (batch_item env_ok) (batch_request [scan_png; anim_gif; photo_jpg])
              [scan_png; anim_gif; photo_jpg] empty_state (or_introl eq_refl) eq_refl)
    as (response & s' & Hrun & Huuid & Hsave).
  { exists scan_png. split; [apply list_elem_of_here|discriminate]. }
  exists response, s'. split; [exact Hrun|]. rewrite Huuid, Hsave.
  split; vm_compute; reflexivity.
Defined.

Lemma X11_detector_failure_instance :
  exists s',
    upload_and_ocr env_identity_fails (single_request scan_png) empty_state
    = (Ok (ErrorBody "An error occurred during OCR processing: detector failed",
           500%nat), s').
Proof.
  destruct (X11_single_route_responses env_identity_fails (single_request scan_png)
              empty_state) as [_ H].
  destruct (H scan_png [] eq_refl) as [_ H2].
  destruct (H2 ltac:(vm_compute; reflexivity) eq_refl) as [_ H3].
  apply (H3 (LibError "detector failed")). reflexivity.
Defined.

Lemma X12_only_the_folder_instance :
  let s' := snd (batch_route (batch_item env_ok)
                   (batch_request [scan_png; anim_gif]) empty_state) in
  upload_folder_exists empty_state = false /\
  fs s' = fs empty_state /\ upload_folder_exists s' = true.
Proof.
  destruct (X12_batch_changes_only_the_upload_folder env_ok (batch_item env_ok)
              (or_introl eq_refl)) as [_ H].
  split; [reflexivity|].
  eapply (H (batch_request [scan_png; anim_gif]) [scan_png; anim_gif]).
  - reflexivity.
  - intros f n _. apply lookup_empty.
  - apply surjective_pairing.
Defined.

Lemma X13_absolute_name_instance :
  fs occupied_state !! "/srv/data/scan.png" = Some "kept" /\
  exists response s',
    upload_and_ocr env_ok (single_request absolute_png) occupied_state
    = (Ok response, s') /\
    fs s' !! "/srv/data/scan.png" = None /\
    log s' = [EvSave "/srv/data/scan.png"; EvOcrPath "/srv/data/scan.png";
              EvRemove "/srv/data/scan.png"].
Proof.
  destruct (X13_single_route_storage_path env_ok (single_request absolute_png)
              absolute_png [] occupied_state eq_refl
              ltac:(vm_compute; reflexivity) eq_refl)
    as (_ & _ & H).
  split; [vm_compute; reflexivity|exact H].
Defined.

Lemma X14_disk_full_instance :
  exists s' o,
    batch_item env_disk_full scan_png empty_state = (Ok tt, s') /\
    results s' = [o] /\
    error_entry "scan.png" "disk full" o /\
    fs s' !! "uploads/id_scan.png" = None.
Proof.
  destruct (X14_failed_save env_disk_full scan_png (LibError "disk full") (Some "")
              ltac:(vm_compute; reflexivity)) as [_ H].
  apply (H (batch_item env_disk_full) empty_state (or_introl eq_refl)).
  reflexivity.
Defined.

Lemma X16_unreadable_instance :
  exists s',
    augmented_item (mkEnv unit (fun _ => "id") (fun _ _ => Saved)
                      (fun _ _ => Ok (one_fragment "plain")) (fun _ _ => None)
                      (fun _ => Raise (LibError "empty image"))
                      (fun _ => Ok tt) (fun _ => Ok None))
                   scan_png empty_state = (Ok tt, s') /\
    results s' = [mkOutcome "scan.png" "" error (Some "empty image") None None] /\
    log s' = [EvSave "uploads/id_scan.png"; EvOcrPath "uploads/id_scan.png";
              EvImread "uploads/id_scan.png"; EvCvtColor;
              EvRemove "uploads/id_scan.png"].
Proof.
  destruct (X16_unreadable_image
              (mkEnv unit (fun _ => "id") (fun _ _ => Saved)
                 (fun _ _ => Ok (one_fragment "plain")) (fun _ _ => None)
                 (fun _ => Raise (LibError "empty image"))
                 (fun _ => Ok tt) (fun _ => Ok None))
              scan_png empty_state "plain" (LibError "empty image")
              ltac:(vm_compute; reflexivity) eq_refl
              ltac:(vm_compute; reflexivity) eq_refl eq_refl)
    as [(s' & o & Hrun & Hres & Hentry & Hlog) _].
  destruct o as [name text status message original variants].
  destruct Hentry as (Hname & Hstatus & Hmessage & Htext & Horiginal & Hvariants).
  cbn in Hname, Hstatus, Hmessage, Htext, Horiginal, Hvariants. subst.
  exists s'. split; [exact Hrun|]. split; [exact Hres|exact Hlog].
Defined.

Lemma X17_agreement_instance :
  exists s1 s2 o1 o2,
    batch_item env_identity_fails scan_png empty_state = (Ok tt, s1) /\
    results s1 = [o1] /\
    augmented_item env_identity_fails scan_png empty_state = (Ok tt, s2) /\
    results s2 = [o2] /\
    o2 = o1.
Proof.
  destruct (X17_augmented_extends_simple env_identity_fails scan_png empty_state)
    as (s1 & s2 & o1 & o2 & H1 & R1 & H2 & R2 & Herr & _).
  exists s1, s2, o1, o2. repeat split; try assumption.
  apply Herr.
  pose proof (batch_item_run env_identity_fails scan_png empty_state) as Hrun.
  rewrite H1 in Hrun. injection Hrun as ->.
  vm_compute in R1. injection R1 as <-. reflexivity.
Defined.

Lemma X18_release_instance :
  (exists s' evs,
     batch_item env_identity_fails scan_png empty_state = (Ok tt, s') /\
     fs s' !! "uploads/id_scan.png" = None /\
     log s' = evs /\
     List.filter storage_event evs
     = [EvSave "uploads/id_scan.png"; EvRemove "uploads/id_scan.png"]) /\
  (exists response s' evs,
     upload_and_ocr env_identity_fails (single_request scan_png) empty_state
     = (Ok response, s') /\
     fs s' !! "uploads/scan.png" = None /\
     log s' = evs /\
     List.filter storage_event evs
     = [EvSave "uploads/scan.png"; EvRemove "uploads/scan.png"]).
Proof.
  destruct (X18_storage_released_once_saved env_identity_fails) as [Hbatch Hsingle].
  destruct (Hbatch (batch_item env_identity_fails) (or_introl eq_refl)) as [Hitem _].
  split.
  - apply (Hitem scan_png empty_state); [vm_compute; reflexivity|reflexivity].
  - apply (Hsingle (single_request scan_png) scan_png [] empty_state);
      [reflexivity|vm_compute; reflexivity|reflexivity].
Defined.
